(** * VoidFinder helper functions: galaxy mesh, survey mask, survey limits

    A shallow embedding of [python/voidfinder/voidfinder_functions.py].

    Numbers.  The Python code computes on numpy [float64] values.  Finite
    values are modelled as exact real numbers (type [R]): no rounding and no
    overflow.  The three special values that numpy produces when it divides
    by zero ([inf], [-inf], [nan]) are kept, because the code runs into them
    at [x = 0] and at [r = 0]; and since the sign of a zero decides which
    infinity a division by it gives, a coordinate is a real number or the
    negative zero ([coord]).  Python integers are [Z]; numpy's 64-bit
    integers are [Z] as well, with the conversion from [float64] written out
    ([astype_int]).

    Exceptions.  A computation that can raise returns a [result]; the
    exceptions are the ones the interpreter raises ([IndexError] on a
    subscript out of range, [ValueError] on [int(nan)], ...).

    Mask reads.  The two containment tests subscript the survey mask; every
    subscript they apply to the mask (or to one of its sub-arrays) is
    recorded in a trace, so that "the mask is not read" can be stated. *)

From Stdlib Require Import Reals Lra Lia ZArith.
From stdpp Require Import base option list gmap strings.

#[local] Open Scope R_scope.

(** ** Decidable comparisons on real numbers *)

#[export] Instance Req_decision : EqDecision R := Req_dec_T.
#[export] Instance Rlt_decision : RelDecision Rlt := Rlt_dec.
#[export] Instance Rle_decision : RelDecision Rle := Rle_dec.
#[export] Instance Rgt_decision : RelDecision Rgt := Rgt_dec.
#[export] Instance Rge_decision : RelDecision Rge := Rge_dec.

(** ** Python exceptions *)

Inductive exn : Set := IndexError | ValueError | OverflowError | KeyError.

Inductive result (A : Type) : Type :=
  | Ok (a : A)
  | Raise (e : exn).
Arguments Ok {A} a.
Arguments Raise {A} e.

#[export] Instance result_ret : MRet result := λ A a, Ok a.
#[export] Instance result_bind : MBind result := λ A B f m,
  match m with
  | Ok a => f a
  | Raise e => Raise e
  end.
#[export] Instance result_fmap : FMap result := λ A B f m,
  match m with
  | Ok a => Ok (f a)
  | Raise e => Raise e
  end.

(** A [for] loop whose body can raise: the state is threaded through the
    elements in order and the first exception ends the loop. *)
Fixpoint for_each {St A : Type} (body : St → A → result St) (l : list A)
    (s : St) : result St :=
  match l with
  | [] => Ok s
  | a :: l' => s' ← body s a; for_each body l' s'
  end.

(** ** numpy and list subscripts

    [a[i]] on an axis of length [len]: a negative [i] counts from the end,
    and an index outside [-len, len) raises [IndexError]. *)

Definition wrap_index (len i : Z) : result nat :=
  let k := if decide (i < 0)%Z then (i + len)%Z else i in
  if decide (0 ≤ k < len)%Z then Ok (Z.to_nat k) else Raise IndexError.

Definition getitem {A : Type} (a : list A) (i : Z) : result A :=
  k ← wrap_index (Z.of_nat (length a)) i;
  match a !! k with
  | Some x => Ok x
  | None => Raise IndexError
  end.

Definition setitem {A : Type} (a : list A) (i : Z) (x : A) : result (list A) :=
  k ← wrap_index (Z.of_nat (length a)) i;
  Ok (<[k := x]> a).

(** ** float64 values *)

Inductive float : Type :=
  | Fin (r : R)
  | PInf
  | NInf
  | NaN.

(** A finite [float64] value as the code receives it: a real number, whose
    zero is [0.0], or the negative zero [-0.0].  The two zeros are equal in
    every comparison; they differ as divisors. *)
Inductive coord : Type :=
  | Re (r : R)
  | NegZero.
Coercion Re : R >-> coord.

(** A row written with real coordinates is read as a row of [coord]. *)
#[local] Arguments pair {A B} & a b.
#[local] Arguments cons {A} & a l.

Definition val (c : coord) : R :=
  match c with
  | Re r => r
  | NegZero => 0
  end.

(** The values of a row of three coordinates. *)
Definition vals (c : coord * coord * coord) : R * R * R :=
  let '(x, y, z) := c in (val x, val y, val z).

(** A point with real coordinates, as a row. *)
Definition point (c : R * R * R) : coord * coord * coord :=
  let '(x, y, z) := c in (Re x, Re y, Re z).

(** [a / b] on finite operands; numpy returns an infinity or [nan] (with a
    warning) when [b] is zero: the infinity has the sign of [a] for [0.0] and
    the opposite sign for [-0.0]. *)
Definition fdiv (a : R) (b : coord) : float :=
  match b with
  | Re b =>
      if decide (b = 0) then
        if decide (0 < a) then PInf
        else if decide (a < 0) then NInf
        else NaN
      else Fin (a / b)
  | NegZero =>
      if decide (0 < a) then NInf
      else if decide (a < 0) then PInf
      else NaN
  end.

(** [np.arctan] *)
Definition arctan (a : float) : float :=
  match a with
  | Fin r => Fin (atan r)
  | PInf => Fin (PI / 2)
  | NInf => Fin (- (PI / 2))
  | NaN => NaN
  end.

(** [np.arcsin]: [nan] outside of [-1, 1]. *)
Definition arcsin (a : float) : float :=
  match a with
  | Fin r => if decide (-1 <= r <= 1) then Fin (asin r) else NaN
  | _ => NaN
  end.

(** [a * c] and [c * a] for a finite [c]. *)
Definition fscale (a : float) (c : R) : float :=
  match a with
  | Fin r => Fin (r * c)
  | PInf => if decide (0 < c) then PInf else if decide (c < 0) then NInf else NaN
  | NInf => if decide (0 < c) then NInf else if decide (c < 0) then PInf else NaN
  | NaN => NaN
  end.

(** [a + c] for a finite [c]. *)
Definition fadd (a : float) (c : R) : float :=
  match a with
  | Fin r => Fin (r + c)
  | _ => a
  end.

(** [a < c] for a finite [c]; every comparison with [nan] is false. *)
Definition flt (a : float) (c : R) : bool :=
  match a with
  | Fin r => bool_decide (r < c)
  | PInf => false
  | NInf => true
  | NaN => false
  end.

(** Rounding toward zero, the conversion of a finite float to an integer. *)
Definition trunc (r : R) : Z :=
  if decide (r < 0) then Zceil r else Zfloor r.

(** Python's [int(a)]. *)
Definition py_int (a : float) : result Z :=
  match a with
  | Fin r => Ok (trunc r)
  | NaN => Raise ValueError
  | _ => Raise OverflowError
  end.

(** The bounds of numpy's [int64]. *)
Definition int64_min : Z := (- 2 ^ 63)%Z.
Definition int64_max : Z := (2 ^ 63 - 1)%Z.

(** numpy's [a.astype(int)], the conversion to [int64]: no exception; a
    finite value is rounded toward zero, and a value whose integer part does
    not fit, or that is not finite, is stored as the smallest 64-bit
    integer (the result of the conversion instruction of x86-64). *)
Definition astype_int (a : float) : Z :=
  match a with
  | Fin r => if decide (int64_min ≤ trunc r ≤ int64_max)%Z then trunc r
             else int64_min
  | _ => int64_min
  end.

(** [np.linalg.norm] of one row *)
Definition norm (c : R * R * R) : R :=
  let '(x, y, z) := c in sqrt (x * x + y * y + z * z).
Arguments norm : simpl never.

(** ** Module constants *)

Definition RtoD : R := 180 / PI.
Definition DtoR : R := PI / 180.
Definition dec_offset : Z := (-90)%Z.

(** ** Galaxy mesh: [mesh_galaxies] and [mesh_galaxies_dict] *)

(** Modelled from the spec: [table_functions.py] is not among the sources.
    [subtract_row t row] subtracts the one-row table [row] from every row of
    the table [t], column by column. *)
Definition subtract_row (t : list (R * R * R)) (row : R * R * R)
  : list (R * R * R) :=
  (λ '(x, y, z), let '(x0, y0, z0) := row in (x - x0, y - y0, z - z0)) <$> t.

(** Modelled from the spec: [table_functions.py] is not among the sources.
    [table_divide t d] divides every entry of the table by the scalar [d]. *)
Definition table_divide (t : list (R * R * R)) (d : R)
  : list (float * float * float) :=
  (λ '(x, y, z), (fdiv x d, fdiv y d, fdiv z d)) <$> t.

(** Modelled from the spec: [table_functions.py] is not among the sources.
    [table_dtype_cast t int] converts every column to integers.  The spec
    gives the cell index of a galaxy as the floor of the quotient; it has no
    word for a quotient that is not finite (a cell edge of length zero), for
    which the value of numpy's conversion is taken. *)
Definition floor_int (a : float) : Z :=
  match a with
  | Fin r => Zfloor r
  | _ => int64_min
  end.

Definition table_dtype_cast_int (t : list (float * float * float))
  : list (Z * Z * Z) :=
  (λ '(x, y, z), (floor_int x, floor_int y, floor_int z)) <$> t.

(** A three-dimensional integer array: its shape and its entries, an entry
    that was never written being zero ([np.zeros]). *)
Record ndarray3 : Type := Ndarray3 {
  nd_shape : Z * Z * Z;
  nd_data : gmap (nat * nat * nat) Z
}.

Definition np_zeros3 (shape : Z * Z * Z) : result ndarray3 :=
  let '(nx, ny, nz) := shape in
  if decide (nx < 0 ∨ ny < 0 ∨ nz < 0)%Z then Raise ValueError
  else Ok (Ndarray3 shape ∅).

Definition nd_get (a : ndarray3) (key : nat * nat * nat) : Z :=
  default 0%Z (nd_data a !! key).

(** [a[i, j, k] += 1] *)
Definition nd_incr (a : ndarray3) (idx : Z * Z * Z) : result ndarray3 :=
  let '(nx, ny, nz) := nd_shape a in
  let '(i, j, k) := idx in
  i' ← wrap_index nx i;
  j' ← wrap_index ny j;
  k' ← wrap_index nz k;
  Ok (Ndarray3 (nd_shape a)
        (<[(i', j', k') := (nd_get a (i', j', k') + 1)%Z]> (nd_data a))).

(** [N_boxes] is the shape of the grid: the body subscripts [ngal] with three
    indices.  The function returns [ngal] alone; the statements that fill
    [chainlist] and [linklist] are commented out in the source. *)
Definition mesh_galaxies (galaxy_coords : list (R * R * R))
    (coord_min : R * R * R) (grid_side_length : R) (N_boxes : Z * Z * Z)
  : result ndarray3 :=
  ngal ← np_zeros3 N_boxes;
  let mesh_indices :=
    table_dtype_cast_int
      (table_divide (subtract_row galaxy_coords coord_min) grid_side_length) in
  for_each nd_incr mesh_indices ngal.

Definition mesh_galaxies_dict (galaxy_coords : list (R * R * R))
    (coord_min : R * R * R) (grid_side_length : R)
  : gmap (Z * Z * Z) Z :=
  let mesh_indices :=
    (λ '(x, y, z), let '(x0, y0, z0) := coord_min in
       (astype_int (fdiv (x - x0) grid_side_length),
        astype_int (fdiv (y - y0) grid_side_length),
        astype_int (fdiv (z - z0) grid_side_length))) <$> galaxy_coords in
  foldl (λ cell_ID_dict bin_ID, <[bin_ID := 1%Z]> cell_ID_dict) ∅ mesh_indices.

(** The cell that the design assigns to a position. *)
Definition grid_cell (coord_min : R * R * R) (cell_edge_length : R)
    (position : R * R * R) : Z * Z * Z :=
  let '(x, y, z) := position in
  let '(x0, y0, z0) := coord_min in
  (Zfloor ((x - x0) / cell_edge_length),
   Zfloor ((y - y0) / cell_edge_length),
   Zfloor ((z - z0) / cell_edge_length)).

(** ** Survey mask: [build_mask] *)

Definition np_zeros2 (rows cols : Z) : result (list (list bool)) :=
  if decide (rows < 0 ∨ cols < 0)%Z then Raise ValueError
  else Ok (replicate (Z.to_nat rows) (replicate (Z.to_nat cols) false)).

(** [np.array(mask)] on a list of two-dimensional arrays of the given
    shapes.  Arrays of one shape are stacked into one array; arrays of
    different shapes raise [ValueError] (numpy 1.24 and later; earlier
    versions returned an array of arrays, with a deprecation warning since
    1.19). *)
Definition np_array (shapes : list (Z * Z)) (mask : list (list (list bool)))
  : result (list (list (list bool))) :=
  match shapes with
  | [] => Ok mask
  | shape :: shapes' =>
      if decide (Forall (λ shape', shape' = shape) shapes') then Ok mask
      else Raise ValueError
  end.

Section build_mask.
(** [maskra] and [maskdec] are module globals that the file reads and does
    not define: the base numbers of RA and Dec bins. *)
Variables maskra maskdec : Z.

(** The inner loop: [mask[i-1][ras[j]][decs[j] - i*dec_offset] = True]
    for [j] in [range(len(ras))]. *)
Definition fill_shell (i : Z) (ras decs : list Z) (shell : list (list bool))
  : result (list (list bool)) :=
  for_each (λ shell j,
      ra ← getitem ras j;
      row ← getitem shell ra;
      dec ← getitem decs j;
      row' ← setitem row (dec - i * dec_offset)%Z true;
      setitem shell ra row')
    (Z.of_nat <$> seq 0 (length ras)) shell.

(** The loop of [build_mask] (lines 134-142): [file[i-1]] is the pair of the
    RA bins [file[i-1][0]] and of the Dec bins [file[i-1][1]] of shell [i],
    for [i] in [range(1, 1+len(file))]. *)
Definition build_shells (file : list (list Z * list Z))
  : result (list (list (list bool))) :=
  for_each (λ mask '(i, (ras, decs)),
      shell ← np_zeros2 (i * maskra) (i * maskdec);
      shell' ← fill_shell i ras decs shell;
      Ok (mask ++ [shell']))
    (zip (Z.of_nat <$> seq 1 (length file)) file) [].

(** The shapes of the arrays that the loop appends, in order. *)
Definition shell_shapes (file : list (list Z * list Z)) : list (Z * Z) :=
  (λ i, (i * maskra, i * maskdec)%Z) <$> (Z.of_nat <$> seq 1 (length file)).

Definition build_mask (file : list (list Z * list Z))
  : result (list (list (list bool))) :=
  mask ← build_shells file;
  np_array (shell_shapes file) mask.
End build_mask.

(** ** Survey mask: the containment tests *)

(** A computation that subscripts the mask: the subscripts applied so far,
    in order, and the result. *)
Definition traced (A : Type) : Type := list Z * result A.

#[export] Instance traced_ret : MRet traced := λ A a, ([], Ok a).
#[export] Instance traced_bind : MBind traced := λ A B f m,
  match m with
  | (t, Ok a) => let '(t', r) := f a in (t ++ t', r)
  | (t, Raise e) => (t, Raise e)
  end.

Definition lift {A : Type} (r : result A) : traced A := ([], r).
Definition reads {A : Type} (m : traced A) : list Z := m.1.
Definition outcome {A : Type} (m : traced A) : result A := m.2.

(** A subscript applied to the mask or to one of its sub-arrays. *)
Definition mask_getitem {A : Type} (a : list A) (i : Z) : traced A :=
  ([i], getitem a i).

(** The right ascension in degrees: lines 246 and 249-252 of [not_in_mask].
    Lines 195 and 199-201 of [in_mask] do the same on every row, see
    [in_mask_ra]. *)
Definition mask_ra (x y : coord) : float :=
  let ra := fscale (arctan (fdiv (val y) x)) RtoD in
  let ra := if bool_decide (val x < 0) && bool_decide (val y ≠ 0)
            then fadd ra 180 else ra in
  if flt ra 0 then fadd ra 360 else ra.

(** The declination in degrees: line 247 of [not_in_mask], line 196 of
    [in_mask]. *)
Definition mask_dec (z r : R) : float :=
  fscale (arcsin (fdiv z r)) RtoD.

(** [survey_mask[n-1][int(n*ra)][int(n*dec) - n*dec_offset]], evaluated
    from left to right. *)
Definition mask_bin (survey_mask : list (list (list bool))) (n : Z)
    (ra dec : float) : traced bool :=
  shell ← mask_getitem survey_mask (n - 1)%Z;
  i ← lift (py_int (fscale ra (IZR n)));
  row ← mask_getitem shell i;
  j ← lift (py_int (fscale dec (IZR n)));
  mask_getitem row (j - n * dec_offset)%Z.

Definition not_in_mask (coordinates : list (coord * coord * coord))
    (survey_mask_ra_dec : list (list (list bool))) (rmin rmax : R)
  : traced bool :=
  coords ← lift (getitem coordinates 0);
  let '(x, y, z) := coords in
  let r := norm (vals coords) in
  if bool_decide (r < rmin) || bool_decide (r > rmax) then mret true
  else
    n ← lift (k ← py_int (Fin (DtoR * r / 10)); Ok (1 + k)%Z);
    let ra := mask_ra x y in
    let dec := mask_dec (val z) r in
    flag ← mask_bin survey_mask_ra_dec n ra dec;
    mret (negb flag).

(** The RA column of [in_mask], computed on whole arrays. *)
Definition in_mask_ra (coordinates : list (coord * coord * coord))
  : list float :=
  let ra := (λ '(x, y, z), fscale (arctan (fdiv (val y) x)) RtoD)
              <$> coordinates in
  let boolean_ra180 :=
    (λ '(x, y, z), bool_decide (val x < 0) && bool_decide (val y ≠ 0))
      <$> coordinates in
  let ra := zip_with (λ a (b : bool), if b then fadd a 180 else a)
              ra boolean_ra180 in
  (λ a, if flt a 0 then fadd a 360 else a) <$> ra.

(** The loop that collects [angood]. *)
Fixpoint in_mask_angood (survey_mask : list (list (list bool)))
    (rows : list (Z * (float * float))) : traced (list bool) :=
  match rows with
  | [] => mret []
  | (n, (ra, dec)) :: rows' =>
      flag ← mask_bin survey_mask n ra dec;
      angood ← in_mask_angood survey_mask rows';
      mret (flag :: angood)
  end.

(** [coordinates] is an array of shape (m, 3) (the conversions of a table or
    of a table row go through [table_functions.py]); [r_limits] is the
    sequence of the two radial limits.  The shell numbers [n] are [int64]
    values, converted by [astype_int].  The sums and products that the
    subscripts take of them are written without wrap-around: they stay
    inside [int64] at every subscript that is evaluated on a mask of fewer
    than [2^55] shells, since the first subscript, [n - 1], finds no shell
    for a larger [n]. *)
Definition in_mask (coordinates : list (coord * coord * coord))
    (survey_mask : list (list (list bool))) (r_limits : list R)
  : traced (list bool) :=
  let r := (λ c, norm (vals c)) <$> coordinates in
  let n := (λ ri, 1 + astype_int (Fin (DtoR * ri / 10)))%Z <$> r in
  let ra := in_mask_ra coordinates in
  let dec := zip_with (λ '(x, y, z) ri, mask_dec (val z) ri) coordinates r in
  angood ← in_mask_angood survey_mask (zip n (zip ra dec));
  rhi ← lift (getitem r_limits 1);
  rlo ← lift (getitem r_limits 0);
  mret (zip_with andb
          (zip_with andb angood ((λ ri, bool_decide (ri <= rhi)) <$> r))
          ((λ ri, bool_decide (ri >= rlo)) <$> r)).

(** Modelled from the spec: [table_functions.py] is not among the sources.
    [to_vector] turns a table of one row into the vector of its three
    coordinates. *)
Definition to_vector (row : coord * coord * coord) : R * R * R := vals row.

(** [coordinates] is a table of one row with the columns x, y and z.  The
    bin indices are converted with [astype(int)], which does not raise, and
    the three conditions of the final test are evaluated from left to right
    until one of them holds. *)
Definition in_mask_table (coordinates : coord * coord * coord)
    (survey_mask : list (list (list bool))) (r_limits : list R)
  : traced bool :=
  let '(x, y, z) := coordinates in
  let r := norm (to_vector coordinates) in
  let n := (1 + astype_int (Fin (DtoR * r / 10)))%Z in
  let ra := fscale (arctan (fdiv (val y) x)) RtoD in
  let dec := fscale (arcsin (fdiv (val z) r)) RtoD in
  let ra := if bool_decide (val x < 0) && bool_decide (val y ≠ 0)
            then fadd ra 180 else ra in
  let ra := if flt ra 0 then fadd ra 360 else ra in
  shell ← mask_getitem survey_mask (n - 1)%Z;
  row ← mask_getitem shell (astype_int (fscale ra (IZR n)));
  flag ← mask_getitem row (astype_int (fscale dec (IZR n)) - n * dec_offset)%Z;
  if negb flag then mret false
  else
    rhi ← lift (getitem r_limits 1);
    if bool_decide (r > rhi) then mret false
    else
      rlo ← lift (getitem r_limits 0);
      if bool_decide (r < rlo) then mret false else mret true.

(** ** Survey limits: [in_survey] *)

(** A table: its columns in order, each with its name.  All the columns of a
    table have the same length, the number of rows. *)
Definition Table : Type := list (string * list R).

Definition table_len (t : Table) : nat :=
  match t with
  | [] => 0
  | (_, col) :: _ => length col
  end.

Definition colnames (t : Table) : list string := t.*1.

Fixpoint column (t : Table) (name : string) : result (list R) :=
  match t with
  | [] => Raise KeyError
  | (name', col) :: t' => if decide (name' = name) then Ok col else column t' name
  end.

Definition limit (row : gmap string R) (name : string) : result R :=
  match row !! name with
  | Some v => Ok v
  | None => Raise KeyError
  end.

(** [np.all([a, b, c], axis=0)] on three arrays of one length. *)
Definition np_all3 (a b c : list bool) : list bool :=
  zip_with andb (zip_with andb a b) c.

Definition in_survey (coordinates : Table) (min_limit max_limit : gmap string R)
  : result (list bool) :=
  for_each (λ good name,
      col ← column coordinates name;
      lo ← limit min_limit name;
      let check_min := (λ v, bool_decide (v > lo)) <$> col in
      col' ← column coordinates name;
      hi ← limit max_limit name;
      let check_max := (λ v, bool_decide (v < hi)) <$> col' in
      Ok (np_all3 good check_min check_max))
    (colnames coordinates) (replicate (table_len coordinates) true).

(** ** Maximal spheres: [save_maximals] *)




(** * Vocabulary of the statements *)

(** ** Galaxy mesh *)

(** The position is not below the minimum corner in any coordinate. *)
Definition above_min (coord_min position : R * R * R) : Prop :=
  let '(x, y, z) := position in
  let '(x0, y0, z0) := coord_min in
  x0 <= x ∧ y0 <= y ∧ z0 <= z.

(** ** Survey mask *)

(** [shell[a][b]] *)
Definition mask_entry (shell : list (list bool)) (a b : Z) : result bool :=
  row ← getitem shell a; getitem row b.

(** A two-dimensional array of [rows] rows and [cols] columns. *)
Definition shell_dims (rows cols : Z) (shell : list (list bool)) : Prop :=
  Z.of_nat (length shell) = rows ∧
  Forall (λ row, Z.of_nat (length row) = cols) shell.

(** The footprint of shell [i] names bins of the grid of shell [i] only, and
    has a Dec bin for each of its RA bins. *)
Definition footprint_in_grid (maskra maskdec i : Z) (ras decs : list Z) : Prop :=
  length ras = length decs ∧
  Forall (λ ra, 0 ≤ ra < i * maskra)%Z ras ∧
  Forall (λ dec, 0 ≤ dec + 90 * i < i * maskdec)%Z decs.

(** One pass of the inner loop of [build_mask] for shell [i], on the bin
    [(ra, dec)]. *)
Definition mark (i : Z) (shell : list (list bool)) (bin : Z * Z)
  : result (list (list bool)) :=
  row ← getitem shell bin.1;
  row' ← setitem row (bin.2 - i * dec_offset)%Z true;
  setitem shell bin.1 row'.

(** The bin lies in a grid of [rows] by [cols] bins of shell [i]. *)
Definition bin_in_grid (i rows cols : Z) (bin : Z * Z) : Prop :=
  (0 ≤ bin.1 < rows ∧ 0 ≤ bin.2 + 90 * i < cols)%Z.

(** What [build_mask] promises about the array of shell [i]. *)
Definition shell_of_footprint (maskra maskdec i : Z) (ras decs : list Z)
    (shell : list (list bool)) : Prop :=
  shell_dims (i * maskra) (i * maskdec) shell ∧
  ∀ a b, (0 ≤ a < i * maskra)%Z → (0 ≤ b < i * maskdec)%Z →
    (mask_entry shell a b = Ok true ↔
     ∃ j dec, ras !! j = Some a ∧ decs !! j = Some dec ∧ b = (dec + 90 * i)%Z).

(** ** Containment tests *)

(** The right ascension of the point, in degrees, as the tests compute it
    away from the z-axis. *)
Definition ra_deg (x y : R) : R :=
  if decide (x = 0) then
    if decide (0 < y) then 90 else 270
  else
    let ra := atan (y / x) * RtoD in
    let ra := if decide (x < 0 ∧ y ≠ 0) then ra + 180 else ra in
    if decide (ra < 0) then ra + 360 else ra.

(** The declination of the point, in degrees. *)
Definition dec_deg (c : R * R * R) : R := asin (c.2 / norm c) * RtoD.

(** The radial shell of the point, counted from 1. *)
Definition shell_index (c : R * R * R) : Z := (1 + Zfloor (DtoR * norm c / 10))%Z.

(** [survey_mask[k][i][j]] *)
Definition mask_lookup (survey_mask : list (list (list bool)))
    (bin : Z * Z * Z) : result bool :=
  let '(k, i, j) := bin in
  shell ← getitem survey_mask k; row ← getitem shell i; getitem row j.

(** The bin that the specification names: every index is a floor. *)
Definition floor_bin (c : R * R * R) : Z * Z * Z :=
  let n := shell_index c in
  ((n - 1)%Z,
   Zfloor (IZR n * ra_deg c.1.1 c.1.2),
   (Zfloor (IZR n * dec_deg c) + 90 * n)%Z).

(** The bin that the code reads: the Dec index is rounded toward zero. *)
Definition trunc_bin (c : R * R * R) : Z * Z * Z :=
  let n := shell_index c in
  ((n - 1)%Z,
   Zfloor (IZR n * ra_deg c.1.1 c.1.2),
   (trunc (IZR n * dec_deg c) + 90 * n)%Z).

(** The mask has at most [2^54] shells.  On such a mask every index that
    [in_mask] and [in_mask_table] compute in [int64] for a shell that the
    mask has is exact, also after the products by 360 and by 90 that the
    subscripts take. *)
Definition int64_mask (survey_mask : list (list (list bool))) : Prop :=
  (Z.of_nat (length survey_mask) ≤ 2 ^ 54)%Z.

(** The containment tests return the flag stored in the bin [bin_of c]:
    [in_mask] the flag itself, [not_in_mask] its negation. *)
Definition returns_flag_of (bin_of : R * R * R → Z * Z * Z) (c : R * R * R)
    (survey_mask : list (list (list bool))) (rmin rmax : R) : Prop :=
  outcome (in_mask [point c] survey_mask [rmin; rmax])
  = (λ flag : bool, [flag]) <$> mask_lookup survey_mask (bin_of c) ∧
  outcome (not_in_mask [point c] survey_mask rmin rmax)
  = negb <$> mask_lookup survey_mask (bin_of c).

(** One shell of 360 by 180 bins in which the only observed bin is the
    first RA bin of the Dec row just north of the equator. *)
Definition equator_mask : list (list (list bool)) :=
  [ (replicate 90 false ++ [true] ++ replicate 89 false)
    :: replicate 359 (replicate 180 false) ].

(** ** Survey limits *)

(** Row [i] of the table is strictly inside the limits in the column
    [name]. *)
Definition strictly_inside (coordinates : Table)
    (min_limit max_limit : gmap string R) (i : nat) (name : string) : Prop :=
  ∀ col lo hi v,
    column coordinates name = Ok col → min_limit !! name = Some lo →
    max_limit !! name = Some hi → col !! i = Some v → lo < v < hi.

(** ** Further vocabulary *)

(** The cell index that [mesh_galaxies_dict] computes for a position: the
    quotient is converted by [astype(int)]. *)
Definition trunc_cell (coord_min : R * R * R) (grid_side_length : R)
    (position : R * R * R) : Z * Z * Z :=
  let '(x, y, z) := position in
  let '(x0, y0, z0) := coord_min in
  (astype_int (fdiv (x - x0) grid_side_length),
   astype_int (fdiv (y - y0) grid_side_length),
   astype_int (fdiv (z - z0) grid_side_length)).

(** The sum of all the entries of the array. *)
Definition nd_total (a : ndarray3) : Z :=
  map_fold (λ _ v total, (v + total)%Z) 0%Z (nd_data a).

(** The position is less than one cell edge away from the minimum corner
    in every coordinate, on either side. *)
Definition near_min (coord_min : R * R * R) (edge : R) (position : R * R * R)
  : Prop :=
  let '(x, y, z) := position in
  let '(x0, y0, z0) := coord_min in
  Rabs (x - x0) < edge ∧ Rabs (y - y0) < edge ∧ Rabs (z - z0) < edge.

(** The entry of an array of the given shape that the subscript
    [[i, j, k]] names, if there is one. *)
Definition wrap_key (shape idx : Z * Z * Z) : result (nat * nat * nat) :=
  let '(nx, ny, nz) := shape in
  let '(i, j, k) := idx in
  i' ← wrap_index nx i; j' ← wrap_index ny j; k' ← wrap_index nz k;
  Ok (i', j', k').

(** What the loop of [in_mask] uses of one row: the shell, the right
    ascension and the declination. *)
Definition mask_row (c : coord * coord * coord) : Z * (float * float) :=
  ((1 + astype_int (Fin (DtoR * norm (vals c) / 10)))%Z,
   (mask_ra c.1.1 c.1.2, mask_dec (val c.2) (norm (vals c)))).

(** The flag that [in_mask] returns for a row whose bin holds [flag]. *)
Definition within_limits (rmin rmax : R) (flag : bool)
    (c : coord * coord * coord) : bool :=
  flag && bool_decide (norm (vals c) <= rmax)
  && bool_decide (norm (vals c) >= rmin).



(** The cell index that [mesh_galaxies] takes from the table functions for
    a position: the floor of the quotient. *)
Definition table_cell (coord_min : R * R * R) (grid_side_length : R)
    (position : R * R * R) : Z * Z * Z :=
  let '(x, y, z) := position in
  let '(x0, y0, z0) := coord_min in
  (floor_int (fdiv (x - x0) grid_side_length),
   floor_int (fdiv (y - y0) grid_side_length),
   floor_int (fdiv (z - z0) grid_side_length)).

(** The indices of the cell fit into [int64]. *)
Definition int64_cell (cell : Z * Z * Z) : Prop :=
  let '(i, j, k) := cell in
  (int64_min ≤ i ≤ int64_max ∧ int64_min ≤ j ≤ int64_max ∧
   int64_min ≤ k ≤ int64_max)%Z.

(** The right ascension, in degrees, that the arctangent of the quotient
    [y/x] gives at [x = 0.0] and at [x = -0.0], for [y ≠ 0]. *)
Definition ra_at_zero (x : coord) (y : R) : Z :=
  match x with
  | Re _ => if decide (0 < y) then 90%Z else 270%Z
  | NegZero => if decide (0 < y) then 270%Z else 90%Z
  end.

(** ** Example inputs *)

(** A footprint of one shell with two bins, for 360 by 180 base bins. *)
Definition example_footprint : list (list Z * list Z) :=
  [([0; 359], [-90; 89])%Z].


(** A table of three rows and two columns, with its limits. *)
Definition example_table : Table :=
  [("x"%string, [1; 2; 5]); ("y"%string, [0; 0; 0])].
Definition example_min : gmap string R :=
  {[ "x"%string := 1; "y"%string := -1 ]}.
Definition example_max : gmap string R :=
  {[ "x"%string := 5; "y"%string := 1 ]}.

(** * Properties *)

(** ** Subscripts *)

Lemma wrap_index_in_range (len i : Z) :
  (0 ≤ i < len)%Z → wrap_index len i = Ok (Z.to_nat i).
Proof.
  intros Hi. unfold wrap_index.
  destruct (decide (i < 0)%Z); [lia|].
  destruct (decide (0 ≤ i < len)%Z); [done|lia].
Qed.

Lemma getitem_in_range {A : Type} (a : list A) (i : nat) (x : A) :
  a !! i = Some x → getitem a (Z.of_nat i) = Ok x.
Proof.
  intros Hx. unfold getitem.
  rewrite wrap_index_in_range by (apply lookup_lt_Some in Hx; lia).
  cbn. rewrite Nat2Z.id, Hx. done.
Qed.

Lemma getitem_nonneg {A : Type} (a : list A) (i : Z) :
  (0 ≤ i)%Z →
  getitem a i = match a !! Z.to_nat i with Some x => Ok x | None => Raise IndexError end.
Proof.
  intros Hi. unfold getitem, wrap_index.
  destruct (decide (i < 0)%Z); [lia|].
  destruct (decide (0 ≤ i < _)%Z) as [Hlt|Hge]; cbn; [done|].
  rewrite lookup_ge_None_2; [done|lia].
Qed.

Lemma setitem_in_range {A : Type} (a : list A) (i : Z) (x : A) :
  (0 ≤ i < Z.of_nat (length a))%Z → setitem a i x = Ok (<[Z.to_nat i := x]> a).
Proof.
  intros Hi. unfold setitem. rewrite wrap_index_in_range by done. done.
Qed.

(** ** Rounding toward zero *)

Lemma trunc_nonneg (r : R) : 0 <= r → trunc r = Zfloor r.
Proof.
  intros Hr. unfold trunc. destruct (decide (r < 0)); [lra|done].
Qed.

Lemma trunc_IZR (z : Z) : trunc (IZR z) = z.
Proof.
  unfold trunc, Zceil. destruct (decide (IZR z < 0)).
  - rewrite ZfloorNZ. lia.
  - apply ZfloorZ.
Qed.

Lemma trunc_negative (r : R) (z : Z) :
  IZR z - 1 < r <= IZR z → r < 0 → trunc r = z.
Proof.
  intros Hz Hr. unfold trunc. destruct (decide (r < 0)); [|lra].
  by apply Zceil_eq.
Qed.

(** ** [in_survey] *)

Section in_survey.
Variables (coordinates : Table) (min_limit max_limit : gmap string R).

Lemma column_elem_of (t : Table) (name : string) :
  name ∈ colnames t → ∃ col, column t name = Ok col ∧ (name, col) ∈ t.
Proof.
  induction t as [|[name' col'] t IH]; cbn.
  - intros H. by apply elem_of_nil in H.
  - intros H. destruct (decide (name' = name)) as [->|Hne].
    + exists col'. split; [done|]. apply elem_of_cons. by left.
    + apply elem_of_cons in H as [H|H]; [congruence|].
      destruct (IH H) as (col & Hc & Hin). exists col. split; [done|].
      apply elem_of_cons. by right.
Qed.

Lemma np_all3_lookup (a b c : list bool) (i : nat) :
  np_all3 a b c !! i = Some true ↔
  a !! i = Some true ∧ b !! i = Some true ∧ c !! i = Some true.
Proof.
  unfold np_all3. rewrite !lookup_zip_with.
  destruct (a !! i) as [[]|], (b !! i) as [[]|], (c !! i) as [[]|];
    cbn; intuition congruence.
Qed.

Lemma in_survey_loop (n : nat) (names : list string) (good0 : list bool) :
  (∀ name, name ∈ names → ∃ col lo hi,
      column coordinates name = Ok col ∧ length col = n ∧
      min_limit !! name = Some lo ∧ max_limit !! name = Some hi) →
  length good0 = n →
  ∃ good,
    for_each (λ good name,
        col ← column coordinates name;
        lo ← limit min_limit name;
        let check_min := (λ v, bool_decide (v > lo)) <$> col in
        col' ← column coordinates name;
        hi ← limit max_limit name;
        let check_max := (λ v, bool_decide (v < hi)) <$> col' in
        Ok (np_all3 good check_min check_max)) names good0 = Ok good ∧
    length good = n ∧
    ∀ i, good !! i = Some true ↔
         good0 !! i = Some true ∧
         ∀ name, name ∈ names →
           strictly_inside coordinates min_limit max_limit i name.
Proof.
  revert good0. induction names as [|name names IH]; intros good0 Hcols Hlen.
  - exists good0. cbn. split_and!; [done..|].
    intros i. split; [|by intros [? _]]. intros ->. split; [done|].
    intros name H. by apply elem_of_nil in H.
  - destruct (Hcols name) as (col & lo & hi & Hc & Hl & Hlo & Hhi);
      [apply elem_of_cons; by left|].
    cbn. rewrite Hc. cbn. unfold limit. rewrite Hlo, Hhi. cbn.
    destruct (IH (np_all3 good0 ((λ v, bool_decide (v > lo)) <$> col)
                    ((λ v, bool_decide (v < hi)) <$> col)))
      as (good & Hrun & Hglen & Hgood).
    + intros name' H. apply Hcols, elem_of_cons. by right.
    + unfold np_all3. rewrite !length_zip_with, !length_fmap. lia.
    + exists good. split_and!; [done..|].
      intros i. rewrite Hgood, np_all3_lookup, !list_lookup_fmap.
      split.
      * intros ((Hg0 & Hmin & Hmax) & Hrest). split; [done|].
        intros name' [->|H]%elem_of_cons; [|by apply Hrest].
        intros col1 lo1 hi1 v Hc1 Hlo1 Hhi1 Hv.
        rewrite Hc in Hc1. rewrite Hlo in Hlo1. rewrite Hhi in Hhi1.
        injection Hc1 as <-. injection Hlo1 as <-. injection Hhi1 as <-.
        rewrite Hv in Hmin, Hmax. cbn in Hmin, Hmax.
        injection Hmin as Hmin. injection Hmax as Hmax.
        apply bool_decide_eq_true in Hmin, Hmax. lra.
      * intros (Hg0 & Hall). split.
        -- split; [done|].
           assert (is_Some (col !! i)) as [v Hv].
           { apply lookup_lt_is_Some. apply lookup_lt_Some in Hg0. lia. }
           rewrite Hv. cbn.
           assert (lo < v < hi) as Hin.
           { eapply (Hall name); [apply elem_of_cons; by left|done..]. }
           split; f_equal; apply bool_decide_eq_true; lra.
        -- intros name' H. apply Hall, elem_of_cons. by right.
Qed.
End in_survey.

(** C10: on a table whose columns all have the length of the table and whose
    column names all have a minimum and a maximum limit, [in_survey] returns
    one flag per row; the flag of a row is [True] if and only if in every
    column the value of the row is strictly greater than the minimum limit
    and strictly less than the maximum limit of the column.  A row that
    equals one of the limits in some column is flagged [False]. *)
Theorem in_survey_strict_limits
    (coordinates : Table) (min_limit max_limit : gmap string R) :
  Forall (λ c, length c.2 = table_len coordinates) coordinates →
  (∀ name, name ∈ colnames coordinates →
     is_Some (min_limit !! name) ∧ is_Some (max_limit !! name)) →
  ∃ good,
    in_survey coordinates min_limit max_limit = Ok good ∧
    length good = table_len coordinates ∧
    ∀ i, (i < table_len coordinates)%nat →
      (good !! i = Some true ↔
         ∀ name, name ∈ colnames coordinates →
           strictly_inside coordinates min_limit max_limit i name) ∧
      (∀ name col v,
         name ∈ colnames coordinates → column coordinates name = Ok col →
         col !! i = Some v →
         min_limit !! name = Some v ∨ max_limit !! name = Some v →
         good !! i = Some false).
Proof.
  intros Hwf Hlim.
  destruct (in_survey_loop coordinates min_limit max_limit
              (table_len coordinates) (colnames coordinates)
              (replicate (table_len coordinates) true))
    as (good & Hrun & Hlen & Hgood).
  - intros name Hin. destruct (column_elem_of _ _ Hin) as (col & Hc & Hel).
    destruct (Hlim name Hin) as [[lo Hlo] [hi Hhi]].
    exists col, lo, hi. split_and!; [done| |done..].
    rewrite Forall_forall in Hwf. apply (Hwf _ Hel).
  - apply length_replicate.
  - exists good. split_and!; [done..|].
    intros i Hi.
    assert (good !! i = Some true ↔
            ∀ name, name ∈ colnames coordinates →
              strictly_inside coordinates min_limit max_limit i name) as Hiff.
    { rewrite Hgood. split; [by intros [_ ?]|]. intros H. split; [|done].
      by apply lookup_replicate_2. }
    split; [done|].
    intros name col v Hin Hc Hv Heq.
    destruct (lookup_lt_is_Some_2 good i) as [b Hb]; [lia|].
    destruct b; [|done]. exfalso.
    destruct Hiff as [Hall _]. specialize (Hall Hb name Hin).
    destruct (Hlim name Hin) as [[lo Hlo] [hi Hhi]].
    specialize (Hall col lo hi v Hc Hlo Hhi Hv).
    destruct Heq as [Heq|Heq]; rewrite Heq in *; simplify_eq; lra.
Qed.

(** The example table: its first and last rows lie on a limit of [x]. *)
Lemma in_survey_strict_limits_witness :
  ∃ good,
    in_survey example_table example_min example_max = Ok good ∧
    length good = table_len example_table ∧
    ∀ i, (i < table_len example_table)%nat →
      (good !! i = Some true ↔
         ∀ name, name ∈ colnames example_table →
           strictly_inside example_table example_min example_max i name) ∧
      (∀ name col v,
         name ∈ colnames example_table → column example_table name = Ok col →
         col !! i = Some v →
         example_min !! name = Some v ∨ example_max !! name = Some v →
         good !! i = Some false).
Proof.
  apply (in_survey_strict_limits example_table example_min example_max).
  - repeat constructor.
  - intros name Hin. unfold example_min, example_max.
    apply elem_of_cons in Hin as [->|Hin];
      [|apply list_elem_of_singleton in Hin as ->];
      split; eexists; reflexivity.
Defined.

(** ** The galaxy mesh *)

Lemma fdiv_nonzero (a b : R) : b ≠ 0 → fdiv a b = Fin (a / b).
Proof. intros Hb. unfold fdiv. by destruct (decide (b = 0)). Qed.

Lemma astype_int_fits (r : R) :
  (int64_min ≤ trunc r ≤ int64_max)%Z → astype_int (Fin r) = trunc r.
Proof. intros Hr. unfold astype_int. by rewrite decide_True. Qed.

Lemma quotient_nonneg (x x0 edge : R) : 0 < edge → x0 <= x → 0 <= (x - x0) / edge.
Proof. intros Hedge Hx. apply Rle_mult_inv_pos; lra. Qed.

Lemma cell_index_floor (x x0 edge : R) :
  0 < edge → x0 <= x →
  (int64_min ≤ Zfloor ((x - x0) / edge) ≤ int64_max)%Z →
  astype_int (fdiv (x - x0) edge) = Zfloor ((x - x0) / edge).
Proof.
  intros Hedge Hx Hfit. rewrite fdiv_nonzero by lra.
  pose proof (trunc_nonneg _ (quotient_nonneg x x0 edge Hedge Hx)) as Ht.
  rewrite astype_int_fits; [done|]. by rewrite Ht.
Qed.

Lemma table_index_floor (x x0 edge : R) :
  edge ≠ 0 → floor_int (fdiv (x - x0) edge) = Zfloor ((x - x0) / edge).
Proof. intros Hedge. by rewrite fdiv_nonzero. Qed.

Lemma table_cell_floor (coord_min : R * R * R) (edge : R) (g : R * R * R) :
  0 < edge → table_cell coord_min edge g = grid_cell coord_min edge g.
Proof.
  intros Hedge. destruct g as [[x y] z], coord_min as [[x0 y0] z0].
  unfold table_cell, grid_cell. by rewrite !table_index_floor by lra.
Qed.

Lemma trunc_cell_floor (coord_min : R * R * R) (edge : R) (g : R * R * R) :
  0 < edge → above_min coord_min g → int64_cell (grid_cell coord_min edge g) →
  trunc_cell coord_min edge g = grid_cell coord_min edge g.
Proof.
  intros Hedge. destruct g as [[x y] z], coord_min as [[x0 y0] z0].
  unfold trunc_cell, grid_cell, above_min, int64_cell.
  intros (Hx & Hy & Hz) (Hi & Hj & Hk). by rewrite !cell_index_floor.
Qed.

Lemma mesh_indices_table (galaxy_coords : list (R * R * R))
    (coord_min : R * R * R) (grid_side_length : R) :
  table_dtype_cast_int
    (table_divide (subtract_row galaxy_coords coord_min) grid_side_length)
  = table_cell coord_min grid_side_length <$> galaxy_coords.
Proof.
  unfold table_dtype_cast_int, table_divide, subtract_row.
  rewrite <- !list_fmap_compose. apply list_fmap_ext.
  intros i [[x y] z] _. by destruct coord_min as [[x0 y0] z0].
Qed.

Lemma mesh_galaxies_loop (galaxy_coords : list (R * R * R))
    (coord_min : R * R * R) (grid_side_length : R) (N_boxes : Z * Z * Z) :
  mesh_galaxies galaxy_coords coord_min grid_side_length N_boxes
  = ngal ← np_zeros3 N_boxes;
    for_each nd_incr (table_cell coord_min grid_side_length <$> galaxy_coords)
      ngal.
Proof. unfold mesh_galaxies. by rewrite mesh_indices_table. Qed.

Lemma dict_of_cells (cells : list (Z * Z * Z)) (d : gmap (Z * Z * Z) Z)
    (c : Z * Z * Z) :
  foldl (λ cell_ID_dict bin_ID, <[bin_ID := 1%Z]> cell_ID_dict) d cells !! c
  = if decide (c ∈ cells) then Some 1%Z else d !! c.
Proof.
  revert d. induction cells as [|c' cells IH]; intros d; cbn.
  - destruct (decide (c ∈ [])) as [H|]; [by apply elem_of_nil in H|done].
  - rewrite IH. destruct (decide (c ∈ cells)) as [Hin|Hnin].
    + rewrite decide_True; [done|]. apply elem_of_cons. by right.
    + destruct (decide (c = c')) as [->|Hne].
      * rewrite lookup_insert_eq. rewrite decide_True; [done|].
        apply elem_of_cons. by left.
      * rewrite lookup_insert_ne by done. rewrite decide_False; [done|].
        intros [?|?]%elem_of_cons; done.
Qed.

Lemma mesh_galaxies_dict_fold (galaxy_coords : list (R * R * R))
    (coord_min : R * R * R) (grid_side_length : R) :
  mesh_galaxies_dict galaxy_coords coord_min grid_side_length
  = foldl (λ cell_ID_dict bin_ID, <[bin_ID := 1%Z]> cell_ID_dict) ∅
      (trunc_cell coord_min grid_side_length <$> galaxy_coords).
Proof. reflexivity. Qed.

Lemma mesh_galaxies_dict_cells (galaxy_coords : list (R * R * R))
    (coord_min : R * R * R) (grid_side_length : R) (c : Z * Z * Z) :
  mesh_galaxies_dict galaxy_coords coord_min grid_side_length !! c
  = if decide (c ∈ trunc_cell coord_min grid_side_length <$> galaxy_coords)
    then Some 1%Z else None.
Proof. by rewrite mesh_galaxies_dict_fold, dict_of_cells. Qed.

Lemma for_each_app {St A : Type} (body : St → A → result St) (l1 l2 : list A)
    (s : St) :
  for_each body (l1 ++ l2) s = s' ← for_each body l1 s; for_each body l2 s'.
Proof.
  revert s. induction l1 as [|a l1 IH]; intros s; [done|].
  cbn [app for_each]. destruct (body s a) as [s1|e]; [|done]. apply IH.
Qed.

Lemma nd_incr_key (a : ndarray3) (c : Z * Z * Z) :
  nd_incr a c
  = key ← wrap_key (nd_shape a) c;
    Ok (Ndarray3 (nd_shape a)
          (<[key := (nd_get a key + 1)%Z]> (nd_data a))).
Proof.
  unfold nd_incr, wrap_key. destruct (nd_shape a) as [[nx ny] nz].
  destruct c as [[i j] k].
  destruct (wrap_index nx i); [|done].
  destruct (wrap_index ny j); [|done].
  by destruct (wrap_index nz k).
Qed.

Lemma nd_incr_grows (a a' : ndarray3) (c : Z * Z * Z) :
  nd_incr a c = Ok a' →
  nd_shape a' = nd_shape a ∧
  (∀ key, nd_get a key ≤ nd_get a' key)%Z ∧
  ∃ key, wrap_key (nd_shape a) c = Ok key ∧ (nd_get a key + 1 ≤ nd_get a' key)%Z.
Proof.
  rewrite nd_incr_key.
  destruct (wrap_key (nd_shape a) c) as [key|e]; [|done].
  intros [= <-]. split; [done|]. split.
  - intros key'. unfold nd_get at 2. cbn [nd_data].
    destruct (decide (key = key')) as [->|Hne].
    + rewrite lookup_insert_eq. cbn. lia.
    + rewrite lookup_insert_ne by done. unfold nd_get. lia.
  - exists key. split; [done|]. unfold nd_get at 2. cbn [nd_data].
    rewrite lookup_insert_eq. cbn. lia.
Qed.

Lemma for_each_grows (cells : list (Z * Z * Z)) (a a' : ndarray3) :
  for_each nd_incr cells a = Ok a' →
  nd_shape a' = nd_shape a ∧
  (∀ key, nd_get a key ≤ nd_get a' key)%Z ∧
  ∀ c, c ∈ cells →
    ∃ key, wrap_key (nd_shape a) c = Ok key ∧ (nd_get a key + 1 ≤ nd_get a' key)%Z.
Proof.
  revert a. induction cells as [|c0 cells IH]; intros a; cbn [for_each].
  - intros [= <-]. split; [done|]. split; [intros; lia|].
    intros c H. by apply elem_of_nil in H.
  - destruct (nd_incr a c0) as [a1|e] eqn:H1; [|done].
    change (Ok a1 ≫= ?f) with (f a1). cbv beta. intros Hrun.
    destruct (nd_incr_grows _ _ _ H1) as (Hs1 & Hm1 & key0 & Hk0 & Hg0).
    destruct (IH _ Hrun) as (Hs & Hm & Hin). rewrite Hs1 in Hs, Hin.
    split; [done|]. split.
    + intros key. specialize (Hm1 key). specialize (Hm key). lia.
    + intros c [->|Hc]%elem_of_cons.
      * exists key0. split; [done|]. specialize (Hm key0). lia.
      * destruct (Hin c Hc) as (key & Hk & Hg). exists key. split; [done|].
        specialize (Hm1 key). lia.
Qed.

Lemma np_zeros3_ok (N_boxes : Z * Z * Z) (a : ndarray3) :
  np_zeros3 N_boxes = Ok a → a = Ndarray3 N_boxes ∅.
Proof.
  unfold np_zeros3. destruct N_boxes as [[nx ny] nz].
  destruct (decide _); [done|]. by intros [= <-].
Qed.

Lemma grid_cell_unit (i : Z) : grid_cell (0, 0, 0) 1 (IZR i, 0, 0) = (i, 0, 0)%Z.
Proof.
  unfold grid_cell. f_equal; [f_equal|]; apply Zfloor_eq; cbn; lra.
Qed.

Lemma trunc_cell_unit (i : Z) :
  trunc_cell (0, 0, 0) 1 (IZR i, 0, 0)
  = (astype_int (Fin (IZR i)), 0, 0)%Z.
Proof.
  unfold trunc_cell. rewrite !fdiv_nonzero by lra.
  replace ((IZR i - 0) / 1) with (IZR i) by (field).
  replace ((0 - 0) / 1) with (IZR 0) by (cbn [IZR]; field).
  rewrite (astype_int_fits (IZR 0)); rewrite trunc_IZR; [done|].
  unfold int64_min, int64_max. lia.
Qed.

(** C6, as stated, fails: the galaxy at x = 10^30 on a grid of unit cells
    with its corner at the origin is not below [coord_min], and its floor
    cell has the index 10^30 in x.  The quotient does not fit into [int64]:
    [astype(int)] stores the smallest 64-bit integer, and the key of the
    galaxy in the dictionary of [mesh_galaxies_dict] is (-2^63, 0, 0), not
    the floor cell. *)
Lemma floor_cell_beyond_int64 :
  above_min (0, 0, 0) (1000000000000000000000000000000, 0, 0) ∧
  grid_cell (0, 0, 0) 1 (1000000000000000000000000000000, 0, 0)
  = (1000000000000000000000000000000, 0, 0)%Z ∧
  mesh_galaxies_dict [(1000000000000000000000000000000, 0, 0)] (0, 0, 0) 1
  = {[ (int64_min, 0, 0)%Z := 1%Z ]} ∧
  mesh_galaxies_dict [(1000000000000000000000000000000, 0, 0)] (0, 0, 0) 1
    !! grid_cell (0, 0, 0) 1 (1000000000000000000000000000000, 0, 0)
  = None.
Proof.
  assert (mesh_galaxies_dict [(1000000000000000000000000000000, 0, 0)]
            (0, 0, 0) 1 = {[ (int64_min, 0, 0)%Z := 1%Z ]}) as Hdict.
  { rewrite mesh_galaxies_dict_fold. cbn [fmap list_fmap foldl].
    rewrite (trunc_cell_unit 1000000000000000000000000000000).
    unfold astype_int. rewrite trunc_IZR.
    rewrite decide_False by (unfold int64_min, int64_max; lia). done. }
  split; [cbn; lra|]. split; [apply grid_cell_unit|]. split; [done|].
  rewrite Hdict, grid_cell_unit. apply lookup_singleton_ne.
  unfold int64_min. intros [= ?]; try lia.
Qed.

(** C6, amended: with a positive cell edge length, a galaxy that is not
    below [coord_min] in any coordinate and whose floor cell
    [floor((position - coord_min) / cell_edge_length)] has indices that fit
    into [int64] is assigned to that cell by both functions, wherever it
    stands in the list.  When its turn comes, [mesh_galaxies_dict] sets the
    key of the floor cell and [mesh_galaxies] increments the count that the
    floor cell subscripts; in the results, the floor cell is a key of the
    dictionary and, if [mesh_galaxies] returns, its count is at least 1. *)
Theorem mesh_assigns_floor_cell
    (before after : list (R * R * R)) (g coord_min : R * R * R)
    (cell_edge_length : R) (N_boxes : Z * Z * Z) :
  0 < cell_edge_length →
  above_min coord_min g →
  int64_cell (grid_cell coord_min cell_edge_length g) →
  mesh_galaxies_dict (before ++ [g]) coord_min cell_edge_length
  = <[grid_cell coord_min cell_edge_length g := 1%Z]>
      (mesh_galaxies_dict before coord_min cell_edge_length) ∧
  mesh_galaxies (before ++ [g]) coord_min cell_edge_length N_boxes
  = (ngal ← mesh_galaxies before coord_min cell_edge_length N_boxes;
     nd_incr ngal (grid_cell coord_min cell_edge_length g)) ∧
  mesh_galaxies_dict (before ++ g :: after) coord_min cell_edge_length
    !! grid_cell coord_min cell_edge_length g = Some 1%Z ∧
  ∀ ngal,
    mesh_galaxies (before ++ g :: after) coord_min cell_edge_length N_boxes
    = Ok ngal →
    ∃ key, wrap_key N_boxes (grid_cell coord_min cell_edge_length g) = Ok key ∧
           (1 ≤ nd_get ngal key)%Z.
Proof.
  intros Hedge Habove Hfit.
  pose proof (trunc_cell_floor coord_min cell_edge_length g Hedge Habove Hfit)
    as Htrunc.
  pose proof (table_cell_floor coord_min cell_edge_length g Hedge) as Htable.
  split_and!.
  - rewrite !mesh_galaxies_dict_fold, fmap_app, foldl_app. cbn [fmap list_fmap foldl].
    by rewrite Htrunc.
  - rewrite !mesh_galaxies_loop, fmap_app.
    destruct (np_zeros3 N_boxes) as [a|e]; [|done].
    change (Ok a ≫= ?f) with (f a). cbv beta.
    rewrite for_each_app. cbn [fmap list_fmap for_each]. rewrite Htable.
    destruct (for_each nd_incr _ a) as [a1|e]; [|done].
    change (Ok a1 ≫= ?f) with (f a1). cbv beta.
    by destruct (nd_incr a1 _).
  - rewrite mesh_galaxies_dict_cells, decide_True; [done|].
    rewrite <- Htrunc. apply list_elem_of_fmap. exists g. split; [done|].
    apply elem_of_app. right. apply elem_of_cons. by left.
  - intros ngal. rewrite mesh_galaxies_loop.
    destruct (np_zeros3 N_boxes) as [a|e] eqn:Hz; [|done].
    apply np_zeros3_ok in Hz as ->.
    change (Ok ?x ≫= ?f) with (f x). cbv beta. intros Hrun.
    destruct (for_each_grows _ _ _ Hrun) as (_ & _ & Hin).
    destruct (Hin (grid_cell coord_min cell_edge_length g)) as (key & Hk & Hg).
    { rewrite <- Htable. apply list_elem_of_fmap. exists g. split; [done|].
      apply elem_of_app. right. apply elem_of_cons. by left. }
    exists key. split; [exact Hk|].
    unfold nd_get at 1 in Hg. cbn [nd_data] in Hg.
    rewrite lookup_empty in Hg. cbn [default] in Hg. lia.
Qed.

(** The galaxy (1,0,0) between the galaxies (0,0,0) and (3,0,0), on unit
    cells. *)
Lemma mesh_assigns_floor_cell_witness :
  mesh_galaxies_dict ([(0, 0, 0)] ++ [(1, 0, 0)]) (0, 0, 0) 1
  = <[grid_cell (0, 0, 0) 1 (1, 0, 0) := 1%Z]>
      (mesh_galaxies_dict [(0, 0, 0)] (0, 0, 0) 1) ∧
  mesh_galaxies ([(0, 0, 0)] ++ [(1, 0, 0)]) (0, 0, 0) 1 (4, 1, 1)%Z
  = (ngal ← mesh_galaxies [(0, 0, 0)] (0, 0, 0) 1 (4, 1, 1)%Z;
     nd_incr ngal (grid_cell (0, 0, 0) 1 (1, 0, 0))) ∧
  mesh_galaxies_dict ([(0, 0, 0)] ++ (1, 0, 0) :: [(3, 0, 0)]) (0, 0, 0) 1
    !! grid_cell (0, 0, 0) 1 (1, 0, 0) = Some 1%Z ∧
  ∀ ngal,
    mesh_galaxies ([(0, 0, 0)] ++ (1, 0, 0) :: [(3, 0, 0)]) (0, 0, 0) 1
      (4, 1, 1)%Z = Ok ngal →
    ∃ key, wrap_key (4, 1, 1)%Z (grid_cell (0, 0, 0) 1 (1, 0, 0)) = Ok key ∧
           (1 ≤ nd_get ngal key)%Z.
Proof.
  apply (mesh_assigns_floor_cell [(0, 0, 0)] [(3, 0, 0)] (1, 0, 0) (0, 0, 0) 1
           (4, 1, 1)%Z).
  - lra.
  - cbn. lra.
  - rewrite (grid_cell_unit 1). unfold int64_cell, int64_min, int64_max. lia.
Defined.

Lemma mesh_example :
  mesh_galaxies [(0, 0, 0); (1, 0, 0)] (0, 0, 0) 1 (2, 1, 1)%Z
  = Ok (Ndarray3 (2, 1, 1)%Z
          {[ (0, 0, 0)%nat := 1%Z; (1, 0, 0)%nat := 1%Z ]}) ∧
  mesh_galaxies [(1, 0, 0); (0, 0, 0)] (0, 0, 0) 1 (2, 1, 1)%Z
  = Ok (Ndarray3 (2, 1, 1)%Z
          {[ (0, 0, 0)%nat := 1%Z; (1, 0, 0)%nat := 1%Z ]}).
Proof.
  rewrite !mesh_galaxies_loop. cbn [fmap list_fmap].
  rewrite !table_cell_floor by lra.
  rewrite !(grid_cell_unit 0), !(grid_cell_unit 1).
  split; vm_compute; reflexivity.
Qed.

(** C7: [mesh_galaxies] returns the array of the counts and nothing else.
    On two galaxies in two different cells it returns the same value
    whichever of the two comes first, although the docstring's [chainlist]
    (the last galaxy stored in each cell) would differ: no chain and no
    membership list is part of what the function returns. *)
Theorem mesh_galaxies_returns_counts_only :
  mesh_galaxies [(0, 0, 0); (1, 0, 0)] (0, 0, 0) 1 (2, 1, 1)%Z
  = Ok (Ndarray3 (2, 1, 1)%Z
          {[ (0, 0, 0)%nat := 1%Z; (1, 0, 0)%nat := 1%Z ]}) ∧
  mesh_galaxies [(1, 0, 0); (0, 0, 0)] (0, 0, 0) 1 (2, 1, 1)%Z
  = mesh_galaxies [(0, 0, 0); (1, 0, 0)] (0, 0, 0) 1 (2, 1, 1)%Z.
Proof.
  destruct mesh_example as [H1 H2]. split; [exact H1|]. by rewrite H1, H2.
Qed.

(** ** [build_mask] *)

Lemma for_each_range {St A : Type} (body : St → Z → result St)
    (g : St → A → result St) (l : list A) (k : nat) (s : St) :
  (∀ s j x, l !! j = Some x → body s (Z.of_nat (k + j)) = g s x) →
  for_each body (Z.of_nat <$> seq k (length l)) s = for_each g l s.
Proof.
  revert k s. induction l as [|x l IH]; intros k s Hbody; [done|].
  cbn [length seq fmap list_fmap for_each].
  rewrite <- (Hbody s 0%nat x eq_refl), Nat.add_0_r.
  destruct (body s (Z.of_nat k)) as [s'|e]; [|done].
  change (Ok s' ≫= ?f) with (f s'). cbv beta.
  apply IH. intros s'' j y Hy.
  rewrite <- (Hbody s'' (S j) y Hy). do 2 f_equal. lia.
Qed.

Lemma shell_dims_zeros (rows cols : Z) :
  (0 ≤ rows)%Z → (0 ≤ cols)%Z →
  np_zeros2 rows cols
  = Ok (replicate (Z.to_nat rows) (replicate (Z.to_nat cols) false)) ∧
  shell_dims rows cols
    (replicate (Z.to_nat rows) (replicate (Z.to_nat cols) false)).
Proof.
  intros Hr Hc. unfold np_zeros2, shell_dims.
  destruct (decide _); [lia|]. split; [done|]. split.
  - rewrite length_replicate. lia.
  - apply Forall_replicate. rewrite length_replicate. lia.
Qed.

Section fill.
Variables (i rows cols : Z).

Lemma mark_in_grid (shell : list (list bool)) (bin : Z * Z) :
  shell_dims rows cols shell → bin_in_grid i rows cols bin →
  ∃ shell',
    mark i shell bin = Ok shell' ∧ shell_dims rows cols shell' ∧
    ∀ a b, (0 ≤ a < rows)%Z → (0 ≤ b < cols)%Z →
      (mask_entry shell' a b = Ok true ↔
       mask_entry shell a b = Ok true ∨ (a = bin.1 ∧ b = bin.2 + 90 * i)%Z).
Proof.
  intros [Hlen Hrows] [Hra Hdec]. destruct bin as [ra dec]. cbn in *.
  destruct (lookup_lt_is_Some_2 shell (Z.to_nat ra)) as [row Hrow]; [lia|].
  assert (Z.of_nat (length row) = cols) as Hrl.
  { rewrite Forall_lookup in Hrows. by apply (Hrows _ _ Hrow). }
  unfold mark. cbn.
  rewrite (getitem_nonneg shell ra), Hrow by lia.
  change (Ok ?x ≫= ?f) with (f x). cbv beta.
  replace (dec - i * dec_offset)%Z with (dec + 90 * i)%Z
    by (unfold dec_offset; lia).
  rewrite setitem_in_range by lia.
  change (Ok ?x ≫= ?f) with (f x). cbv beta.
  rewrite setitem_in_range by lia.
  eexists. split; [done|]. split.
  - split; [by rewrite length_insert|].
    apply Forall_insert; [done|]. by rewrite length_insert.
  - intros a b Ha Hb. unfold mask_entry.
    rewrite !(getitem_nonneg _ a) by lia.
    destruct (decide (a = ra)) as [->|Hne].
    + rewrite list_lookup_insert_eq, Hrow by lia.
      change (Ok ?x ≫= ?f) with (f x). cbv beta.
      rewrite !(getitem_nonneg _ b) by lia.
      destruct (decide (b = dec + 90 * i)%Z) as [->|Hnb].
      * rewrite list_lookup_insert_eq by lia. intuition.
      * rewrite list_lookup_insert_ne by lia. intuition (try lia).
    + rewrite list_lookup_insert_ne by lia. intuition (try lia).
Qed.

Lemma fill_in_grid (bins : list (Z * Z)) (shell : list (list bool)) :
  shell_dims rows cols shell → Forall (bin_in_grid i rows cols) bins →
  ∃ shell',
    for_each (mark i) bins shell = Ok shell' ∧
    shell_dims rows cols shell' ∧
    ∀ a b, (0 ≤ a < rows)%Z → (0 ≤ b < cols)%Z →
      (mask_entry shell' a b = Ok true ↔
       mask_entry shell a b = Ok true ∨ (a, (b - 90 * i)%Z) ∈ bins).
Proof.
  revert shell. induction bins as [|bin bins IH]; intros shell Hdims Hall.
  - exists shell. split_and!; [done..|]. intros a b _ _.
    split; [by left|]. intros [?|H]; [done|]. by apply elem_of_nil in H.
  - apply Forall_cons in Hall as [Hbin Hall].
    destruct (mark_in_grid shell bin Hdims Hbin) as (s1 & Hm & Hd1 & He1).
    destruct (IH s1 Hd1 Hall) as (s2 & Hrun & Hd2 & He2).
    exists s2. cbn [for_each]. rewrite Hm. split_and!; [done..|].
    intros a b Ha Hb. rewrite (He2 a b Ha Hb), (He1 a b Ha Hb).
    rewrite elem_of_cons. destruct bin as [ra dec]. cbn.
    split.
    + intros [[?|[-> ->]]|?]; [by left| |by right; right].
      right; left. f_equal. lia.
    + intros [?|[[= -> <-]|?]]; [by left; left| |by right].
      left; right. split; [done|lia].
Qed.
End fill.

Lemma fill_shell_mark (i : Z) (ras decs : list Z) (shell : list (list bool)) :
  length ras = length decs →
  fill_shell i ras decs shell = for_each (mark i) (zip ras decs) shell.
Proof.
  intros Hlen. unfold fill_shell.
  replace (length ras) with (length (zip ras decs))
    by (rewrite length_zip; lia).
  apply for_each_range. intros s j [ra dec] [Hra Hdec]%lookup_zip_Some.
  cbn in Hra, Hdec. rewrite Nat.add_0_l.
  rewrite (getitem_in_range _ _ _ Hra), (getitem_in_range _ _ _ Hdec).
  unfold mark. cbn. by destruct (getitem s ra).
Qed.

Lemma zeros_entry (rows cols a b : Z) :
  mask_entry (replicate (Z.to_nat rows) (replicate (Z.to_nat cols) false)) a b
  ≠ Ok true.
Proof.
  unfold mask_entry, getitem.
  destruct (wrap_index _ a) as [ka|]; [|done]. cbn.
  destruct (replicate _ _ !! ka) as [row|] eqn:Hrow; [|done].
  apply lookup_replicate in Hrow as [-> _]. cbn.
  destruct (wrap_index _ b) as [kb|]; [|done]. cbn.
  destruct (replicate _ _ !! kb) as [x|] eqn:Hx; [|done].
  by apply lookup_replicate in Hx as [-> _].
Qed.

Section build_mask_correct.
Variables maskra maskdec : Z.
Hypothesis maskra_nonneg : (0 ≤ maskra)%Z.
Hypothesis maskdec_nonneg : (0 ≤ maskdec)%Z.

Lemma build_shell (i : Z) (ras decs : list Z) :
  (0 ≤ i)%Z → footprint_in_grid maskra maskdec i ras decs →
  ∃ shell,
    (shell0 ← np_zeros2 (i * maskra) (i * maskdec);
     fill_shell i ras decs shell0) = Ok shell ∧
    shell_of_footprint maskra maskdec i ras decs shell.
Proof.
  intros Hi (Hlen & Hras & Hdecs).
  destruct (shell_dims_zeros (i * maskra) (i * maskdec)) as [-> Hdims];
    [lia..|].
  change (Ok ?x ≫= ?f) with (f x). cbv beta.
  rewrite fill_shell_mark by done.
  destruct (fill_in_grid i (i * maskra) (i * maskdec) (zip ras decs) _ Hdims)
    as (shell & Hrun & Hd & He).
  { apply Forall_lookup. intros j [ra dec] [Hra Hdec]%lookup_zip_Some.
    cbn in Hra, Hdec. split; cbn.
    - rewrite Forall_lookup in Hras. by apply (Hras j).
    - rewrite Forall_lookup in Hdecs. by apply (Hdecs j). }
  exists shell. split; [done|]. split; [done|].
  intros a b Ha Hb. rewrite (He a b Ha Hb). split.
  - intros [H|Hin]; [by apply zeros_entry in H|].
    apply list_elem_of_lookup in Hin as [j [Hra Hdec]%lookup_zip_Some].
    cbn in Hra, Hdec. exists j, (b - 90 * i)%Z. split_and!; [done..|lia].
  - intros (j & dec & Hra & Hdec & ->). right.
    apply list_elem_of_lookup. exists j. apply lookup_zip_Some. cbn.
    split; [done|]. rewrite Hdec. f_equal. lia.
Qed.

Lemma build_loop (file : list (list Z * list Z)) (k : nat)
    (acc : list (list (list bool))) :
  (∀ n ras decs, file !! n = Some (ras, decs) →
     footprint_in_grid maskra maskdec (Z.of_nat (k + n) + 1) ras decs) →
  ∃ shells,
    for_each (λ mask '(i, (ras, decs)),
        shell ← np_zeros2 (i * maskra) (i * maskdec);
        shell' ← fill_shell i ras decs shell;
        Ok (mask ++ [shell']))
      (zip (Z.of_nat <$> seq (S k) (length file)) file) acc
    = Ok (acc ++ shells) ∧
    length shells = length file ∧
    ∀ n ras decs, file !! n = Some (ras, decs) →
      ∃ shell, shells !! n = Some shell ∧
        shell_of_footprint maskra maskdec (Z.of_nat (k + n) + 1) ras decs shell.
Proof.
  revert k acc. induction file as [|[ras decs] file IH]; intros k acc Hfile.
  - exists []. cbn. rewrite app_nil_r. split_and!; [done..|].
    intros n ras decs H. by rewrite lookup_nil in H.
  - destruct (build_shell (Z.of_nat (S k)) ras decs) as (shell & Hrun & Hok);
      [lia| |].
    { replace (Z.of_nat (S k)) with (Z.of_nat (k + 0) + 1)%Z by lia.
      by apply (Hfile 0%nat). }
    destruct (IH (S k) (acc ++ [shell])) as (shells & Hloop & Hlen & Hshells).
    { intros n ras' decs' Hn.
      replace (Z.of_nat (S k + n) + 1)%Z with (Z.of_nat (k + S n) + 1)%Z by lia.
      by apply (Hfile (S n)). }
    exists (shell :: shells).
    cbn [length seq fmap list_fmap zip zip_with for_each].
    destruct (np_zeros2 _ _) as [shell0|e]; [|done].
    change (Ok shell0 ≫= ?f) with (f shell0) in Hrun |- *. cbv beta in Hrun |- *.
    rewrite Hrun.
    change (Ok shell ≫= ?f) with (f shell). cbv beta.
    change (Ok ?x ≫= ?f) with (f x). cbv beta.
    rewrite Hloop. rewrite <- app_assoc. split_and!; [done|cbn; lia|].
    intros [|n] ras' decs' Hn.
    + injection Hn as <- <-. exists shell. split; [done|].
      replace (Z.of_nat (k + 0) + 1)%Z with (Z.of_nat (S k)) by lia. done.
    + destruct (Hshells n ras' decs' Hn) as (sh & Hsh & Hp).
      exists sh. split; [done|].
      replace (Z.of_nat (k + S n) + 1)%Z with (Z.of_nat (S k + n) + 1)%Z by lia.
      done.
Qed.
End build_mask_correct.

Lemma np_array_shells (maskra maskdec : Z) (file : list (list Z * list Z))
    (mask : list (list (list bool))) :
  np_array (shell_shapes maskra maskdec file) mask
  = if decide ((length file ≤ 1)%nat ∨ (maskra = 0 ∧ maskdec = 0)%Z)
    then Ok mask else Raise ValueError.
Proof.
  unfold shell_shapes. destruct file as [|f1 [|f2 file]].
  - cbn [length seq fmap list_fmap np_array].
    destruct (decide _) as [|Hn]; [done|]. exfalso. apply Hn. left. cbn. lia.
  - cbn [length seq fmap list_fmap np_array].
    destruct (decide (Forall _ [])) as [|Hn]; [|exfalso; apply Hn; constructor].
    destruct (decide _) as [|Hn]; [done|]. exfalso. apply Hn. left. cbn. lia.
  - cbn [length seq fmap list_fmap np_array].
    destruct (decide (maskra = 0 ∧ maskdec = 0)%Z) as [[-> ->]|Hne].
    + rewrite (decide_True (P := _ ∨ _)) by (by right).
      rewrite decide_True; [done|].
      apply Forall_cons. split; [f_equal; lia|].
      apply Forall_fmap, Forall_fmap, Forall_forall. intros i _. cbn.
      f_equal; lia.
    + rewrite (decide_False (P := _ ∨ _)) by (intros [?|?]; [cbn in *; lia|done]).
      rewrite decide_False; [done|].
      intros [Heq _]%Forall_cons. injection Heq as H1 H2. apply Hne. lia.
Qed.




(** ** Angles and radii *)

Lemma PI_gt_3 : 3 < PI.
Proof. pose proof PI2_3_2. lra. Qed.

Lemma RtoD_pos : 0 < RtoD.
Proof. unfold RtoD. apply Rdiv_pos_pos; [lra|apply PI_RGT_0]. Qed.

Lemma RtoD_PI (k : R) : PI / k * RtoD = 180 / k.
Proof.
  unfold RtoD. destruct (decide (k = 0)) as [->|Hk].
  - unfold Rdiv. rewrite Rinv_0. lra.
  - field. split; [done|apply PI_neq0].
Qed.

Lemma atan_degrees (t : R) : -90 < atan t * RtoD < 90.
Proof.
  pose proof (atan_bound t) as [Hlo Hhi]. pose proof RtoD_pos as Hpos.
  pose proof (RtoD_PI 2) as H2. split.
  - replace (-90) with (- (PI / 2) * RtoD) by lra.
    apply Rmult_lt_compat_r; lra.
  - replace 90 with (PI / 2 * RtoD) by lra.
    apply Rmult_lt_compat_r; lra.
Qed.

Lemma asin_degrees (t : R) : -90 <= asin t * RtoD <= 90.
Proof.
  pose proof (asin_bound t) as [Hlo Hhi]. pose proof RtoD_pos as Hpos.
  pose proof (RtoD_PI 2) as H2. split.
  - replace (-90) with (- (PI / 2) * RtoD) by lra.
    apply Rmult_le_compat_r; lra.
  - replace 90 with (PI / 2 * RtoD) by lra.
    apply Rmult_le_compat_r; lra.
Qed.

Lemma norm_nonneg (c : R * R * R) : 0 <= norm c.
Proof. destruct c as [[x y] z]. apply sqrt_pos. Qed.

Lemma norm_pos (x y z : R) : x ≠ 0 ∨ y ≠ 0 ∨ z ≠ 0 → 0 < norm (x, y, z).
Proof.
  intros H. apply sqrt_lt_R0.
  destruct H as [H|[H|H]]; nra.
Qed.

Lemma norm_bounds_z (x y z : R) : - norm (x, y, z) <= z <= norm (x, y, z).
Proof.
  assert (Rabs z <= norm (x, y, z)) as H.
  { rewrite <- sqrt_Rsqr_abs. apply sqrt_le_1_alt. unfold Rsqr. nra. }
  pose proof (Rle_abs z). pose proof (Rle_abs (- z)) as Hn.
  rewrite Rabs_Ropp in Hn. lra.
Qed.

Lemma norm_axis_x (x : R) : 0 <= x → norm (x, 0, 0) = x.
Proof.
  intros Hx. unfold norm.
  replace (x * x + 0 * 0 + 0 * 0) with (x * x) by lra.
  by apply sqrt_square.
Qed.

Lemma shell_number (r : R) :
  0 <= r → trunc (DtoR * r / 10) = Zfloor (DtoR * r / 10) ∧
           (0 ≤ Zfloor (DtoR * r / 10))%Z.
Proof.
  intros Hr. assert (0 <= DtoR * r / 10) as H.
  { unfold DtoR. pose proof PI_RGT_0.
    apply Rle_mult_inv_pos; [|lra]. apply Rmult_le_pos; [|done].
    apply Rle_mult_inv_pos; lra. }
  split; [by apply trunc_nonneg|].
  apply Zfloor_lub. by cbn.
Qed.

(** ** The containment tests *)

Lemma outcome_bind {A B : Type} (m : traced A) (f : A → traced B) :
  outcome (m ≫= f) = outcome m ≫= (λ a, outcome (f a)).
Proof.
  destruct m as [t [a|e]]; cbn; [|done]. by destruct (f a).
Qed.

Lemma mask_ra_value (x y : R) :
  x ≠ 0 ∨ y ≠ 0 → mask_ra x y = Fin (ra_deg x y) ∧ 0 <= ra_deg x y < 360.
Proof.
  intros Hxy. unfold mask_ra, ra_deg, fdiv. cbn [val].
  pose proof (RtoD_PI 2) as H2. pose proof (atan_degrees (y / x)) as Hat.
  destruct (decide (x = 0)) as [->|Hx].
  - rewrite bool_decide_eq_false_2 by lra. cbn [andb].
    destruct (decide (0 < y)); [|destruct (decide (y < 0)); [|lra]];
      cbn [arctan fscale fadd flt]; case_bool_decide; cbn [fadd];
      try lra; split; try lra; f_equal; lra.
  - cbn [arctan fscale].
    destruct (decide (x < 0 ∧ y ≠ 0)) as [[Hx0 Hy]|Hn].
    + rewrite !bool_decide_eq_true_2 by done. cbn [andb fadd flt].
      case_bool_decide; destruct (decide _); cbn [fadd]; try lra;
        split; try done; lra.
    + assert (bool_decide (x < 0) && bool_decide (y ≠ 0) = false) as ->.
      { apply andb_false_iff. destruct (decide (x < 0)).
        - right. apply bool_decide_eq_false_2. intros Hy. by apply Hn.
        - left. by apply bool_decide_eq_false_2. }
      cbn [flt]. case_bool_decide; destruct (decide _); cbn [fadd]; try lra;
        split; try done; lra.
Qed.

Lemma mask_dec_value (x y z : R) :
  x ≠ 0 ∨ y ≠ 0 ∨ z ≠ 0 →
  mask_dec z (norm (x, y, z)) = Fin (dec_deg (x, y, z)) ∧
  -90 <= dec_deg (x, y, z) <= 90.
Proof.
  intros Hc. pose proof (norm_pos x y z Hc) as Hr.
  pose proof (norm_bounds_z x y z) as Hz.
  unfold mask_dec, dec_deg. rewrite fdiv_nonzero by lra. cbn [arcsin snd].
  rewrite decide_True.
  - split; [done|apply asin_degrees].
  - split.
    + apply Rmult_le_reg_r with (norm (x, y, z)); [done|].
      unfold Rdiv. rewrite Rmult_assoc, Rinv_l by lra. lra.
    + apply Rmult_le_reg_r with (norm (x, y, z)); [done|].
      unfold Rdiv. rewrite Rmult_assoc, Rinv_l by lra. lra.
Qed.

Lemma mask_bin_outcome (survey_mask : list (list (list bool))) (n : Z)
    (ra dec : R) :
  (1 ≤ n)%Z → 0 <= ra →
  outcome (mask_bin survey_mask n (Fin ra) (Fin dec))
  = mask_lookup survey_mask
      ((n - 1)%Z, Zfloor (IZR n * ra), (trunc (IZR n * dec) + 90 * n)%Z).
Proof.
  intros Hn Hra. unfold mask_bin, mask_lookup, mask_getitem, lift.
  cbn [fscale py_int].
  rewrite (trunc_nonneg (ra * IZR n)).
  2:{ apply Rmult_le_pos; [done|]. apply IZR_le. lia. }
  rewrite (Rmult_comm ra), (Rmult_comm dec).
  destruct (getitem survey_mask (n - 1)) as [shell|e]; cbn; [|done].
  destruct (getitem shell _) as [row|e]; cbn; [|done].
  f_equal. unfold dec_offset. lia.
Qed.

Lemma getitem_outside {A : Type} (a : list A) (i : Z) :
  ¬ (- Z.of_nat (length a) ≤ i < Z.of_nat (length a))%Z →
  getitem a i = Raise IndexError.
Proof.
  intros Hi. unfold getitem, wrap_index.
  destruct (decide (i < 0)%Z); (destruct (decide _); [lia|done]).
Qed.

Lemma getitem_inside {A : Type} (a : list A) (i : Z) (x : A) :
  getitem a i = Ok x → (- Z.of_nat (length a) ≤ i < Z.of_nat (length a))%Z.
Proof.
  intros Hx. destruct (decide (- Z.of_nat (length a) ≤ i < Z.of_nat (length a))%Z)
    as [|Hn]; [done|].
  rewrite (getitem_outside a i Hn) in Hx. discriminate.
Qed.

Lemma mask_bin_no_shell (survey_mask : list (list (list bool))) (n : Z)
    (ra dec : float) :
  ¬ (- Z.of_nat (length survey_mask) ≤ n - 1 < Z.of_nat (length survey_mask))%Z →
  mask_bin survey_mask n ra dec = ([(n - 1)%Z], Raise IndexError).
Proof.
  intros Hn. unfold mask_bin, mask_getitem. by rewrite getitem_outside.
Qed.

Lemma int64_mask_array (survey_mask : list (list (list bool))) :
  int64_mask survey_mask → (Z.of_nat (length survey_mask) < 2 ^ 63)%Z.
Proof. unfold int64_mask. lia. Qed.

(** The shell number of [in_mask], an [int64], against the one of
    [not_in_mask], a Python integer: they differ only beyond the shells of
    a mask. *)
Lemma shell_number_int64 (survey_mask : list (list (list bool))) (r : R) :
  0 <= r → (Z.of_nat (length survey_mask) < 2 ^ 63)%Z →
  astype_int (Fin (DtoR * r / 10)) = Zfloor (DtoR * r / 10) ∨
  ¬ (- Z.of_nat (length survey_mask) ≤ 1 + astype_int (Fin (DtoR * r / 10)) - 1
     < Z.of_nat (length survey_mask))%Z ∧
  ¬ (- Z.of_nat (length survey_mask) ≤ 1 + Zfloor (DtoR * r / 10) - 1
     < Z.of_nat (length survey_mask))%Z.
Proof.
  intros Hr Hlen. destruct (shell_number r Hr) as [Ht Hpos].
  unfold astype_int. rewrite Ht.
  destruct (decide _) as [Hfit|Hbig]; [by left|right].
  unfold int64_min, int64_max in *. split; lia.
Qed.

Lemma mask_bin_int64 (survey_mask : list (list (list bool))) (r : R)
    (ra dec : float) :
  0 <= r → (Z.of_nat (length survey_mask) < 2 ^ 63)%Z →
  outcome (mask_bin survey_mask (1 + astype_int (Fin (DtoR * r / 10))) ra dec)
  = outcome (mask_bin survey_mask (1 + Zfloor (DtoR * r / 10)) ra dec).
Proof.
  intros Hr Hlen.
  destruct (shell_number_int64 survey_mask r Hr Hlen) as [->|[H1 H2]]; [done|].
  by rewrite !mask_bin_no_shell.
Qed.

Lemma in_mask_rows (coordinates : list (coord * coord * coord))
    (survey_mask : list (list (list bool))) (rmin rmax : R) :
  in_mask coordinates survey_mask [rmin; rmax]
  = angood ← in_mask_angood survey_mask (mask_row <$> coordinates);
    mret (zip_with (within_limits rmin rmax) angood coordinates).
Proof.
  unfold in_mask.
  change (getitem [rmin; rmax] 1) with (Ok rmax).
  change (getitem [rmin; rmax] 0) with (Ok rmin).
  assert (zip ((λ ri, 1 + astype_int (Fin (DtoR * ri / 10)))%Z
                 <$> ((λ c, norm (vals c)) <$> coordinates))
            (zip (in_mask_ra coordinates)
               (zip_with (λ '(x, y, z) ri, mask_dec (val z) ri) coordinates
                  ((λ c, norm (vals c)) <$> coordinates)))
          = mask_row <$> coordinates) as ->.
  { unfold in_mask_ra. induction coordinates as [|[[x y] z] cs IH]; [done|].
    cbn [fmap list_fmap zip zip_with] in *. by rewrite IH. }
  destruct (in_mask_angood _ _) as [t [angood|e]]; [|done].
  unfold lift. cbn [mbind traced_bind mret traced_ret].
  rewrite !app_nil_r. do 2 f_equal.
  revert angood. induction coordinates as [|c cs IH]; intros [|flag angood];
    try done.
  cbn [fmap list_fmap zip_with]. by rewrite IH.
Qed.

Lemma in_mask_row (c : coord * coord * coord)
    (survey_mask : list (list (list bool))) (rmin rmax : R) :
  in_mask [c] survey_mask [rmin; rmax]
  = flag ← mask_bin survey_mask
             (1 + astype_int (Fin (DtoR * norm (vals c) / 10)))
             (mask_ra c.1.1 c.1.2) (mask_dec (val c.2) (norm (vals c)));
    mret [within_limits rmin rmax flag c].
Proof.
  rewrite in_mask_rows. cbn [fmap list_fmap in_mask_angood]. unfold mask_row.
  destruct (mask_bin _ _ _ _) as [t [flag|e]]; [|done].
  cbn. by rewrite !app_nil_r.
Qed.

Lemma not_in_mask_first_row (c : coord * coord * coord)
    (rest : list (coord * coord * coord))
    (survey_mask : list (list (list bool))) (rmin rmax : R) :
  not_in_mask (c :: rest) survey_mask rmin rmax
  = if bool_decide (norm (vals c) < rmin) || bool_decide (norm (vals c) > rmax)
    then mret true
    else
      flag ← mask_bin survey_mask (1 + trunc (DtoR * norm (vals c) / 10))
               (mask_ra c.1.1 c.1.2) (mask_dec (val c.2) (norm (vals c)));
      mret (negb flag).
Proof.
  unfold not_in_mask.
  change (lift (getitem (c :: rest) 0)) with (mret (M := traced) c).
  change (mret c ≫= ?f) with (let '(t', r) := f c in ([] ++ t', r)).
  destruct c as [[x y] z]. cbv beta iota. cbn [fst snd].
  destruct (_ || _); [done|]. cbn [py_int].
  change (Ok ?a ≫= ?f) with (f a). cbv beta.
  unfold lift. cbn [mbind traced_bind].
  by destruct (mask_bin _ _ _ _) as [t [flag|e]].
Qed.

Lemma shell_index_pos (x y z : R) : (1 ≤ shell_index (x, y, z))%Z.
Proof.
  unfold shell_index.
  pose proof (shell_number (norm (x, y, z)) (norm_nonneg _)) as [_ H]. lia.
Qed.

Section containment.
Variables (x y z : R) (survey_mask : list (list (list bool))) (rmin rmax : R).
Hypothesis off_axis : x ≠ 0 ∨ y ≠ 0.

#[local] Abbreviation r := (norm (x, y, z)).

Lemma mask_bin_trunc_bin :
  outcome (mask_bin survey_mask (shell_index (x, y, z)) (mask_ra x y)
             (mask_dec z (norm (x, y, z))))
  = mask_lookup survey_mask (trunc_bin (x, y, z)).
Proof.
  destruct (mask_ra_value x y off_axis) as [-> [Hra _]].
  destruct (mask_dec_value x y z) as [-> _]; [tauto|].
  rewrite mask_bin_outcome by (done || apply shell_index_pos). done.
Qed.

Lemma not_in_mask_outcome :
  outcome (not_in_mask [(x, y, z)] survey_mask rmin rmax)
  = if bool_decide (r < rmin) || bool_decide (r > rmax) then Ok true
    else negb <$> mask_lookup survey_mask (trunc_bin (x, y, z)).
Proof.
  rewrite not_in_mask_first_row. cbn [vals val fst snd].
  destruct (bool_decide (r < rmin) || bool_decide (r > rmax)); [done|].
  destruct (shell_number r (norm_nonneg _)) as [-> _].
  rewrite outcome_bind.
  change (1 + Zfloor (DtoR * norm (x, y, z) / 10))%Z
    with (shell_index (x, y, z)).
  rewrite mask_bin_trunc_bin.
  by destruct (mask_lookup _ _).
Qed.

Lemma in_mask_outcome :
  (Z.of_nat (length survey_mask) < 2 ^ 63)%Z →
  outcome (in_mask [(x, y, z)] survey_mask [rmin; rmax])
  = (λ flag : bool,
       [flag && bool_decide (r <= rmax) && bool_decide (r >= rmin)])
    <$> mask_lookup survey_mask (trunc_bin (x, y, z)).
Proof.
  intros mask_length. rewrite in_mask_row. cbn [vals val fst snd].
  rewrite outcome_bind, mask_bin_int64 by (done || apply norm_nonneg).
  change (1 + Zfloor (DtoR * norm (x, y, z) / 10))%Z
    with (shell_index (x, y, z)).
  rewrite mask_bin_trunc_bin.
  by destruct (mask_lookup _ _).
Qed.
End containment.

(** ** Small angles *)

Lemma sin_degree : 1 / 100 < sin (PI / 180).
Proof.
  pose proof PI_gt_3 as H3. pose proof PI_4 as H4.
  assert (0 <= PI / 180) as H0 by lra.
  assert (PI / 180 <= PI) as H1 by lra.
  destruct (sin_bound (PI / 180) 0 H0 H1) as [Hlo _].
  unfold sin_approx, sin_term in Hlo. cbn in Hlo.
  set (a := PI / 180) in *.
  assert (1 / 60 < a <= 1 / 45) as [Ha1 Ha2] by (unfold a; lra).
  assert (a * (a * (a * 1)) <= a * (1 / 45 * (1 / 45))) as Hcube.
  { rewrite Rmult_1_r. apply Rmult_le_compat_l; [lra|].
    apply Rmult_le_compat; lra. }
  lra.
Qed.

Lemma asin_nonneg (t : R) : 0 <= t <= 1 → 0 <= asin t.
Proof.
  intros Ht. pose proof PI_gt_3 as H3.
  pose proof (asin_bound t) as [Hlo Hhi].
  assert (sin (asin t) = t) as Hs by (apply sin_asin; lra).
  apply Rnot_lt_le. intros Hneg.
  pose proof (sin_lt_0_var (asin t)) as H. lra.
Qed.

Lemma asin_small (t : R) : 0 < t < 1 / 100 → 0 < asin t < PI / 180.
Proof.
  intros [Ht0 Ht1]. pose proof PI_gt_3 as H3.
  pose proof (asin_bound t) as [Hlo Hhi].
  assert (sin (asin t) = t) as Hs by (apply sin_asin; lra).
  split.
  - apply Rnot_le_lt. intros Hle.
    pose proof (sin_incr_1 (asin t) 0) as H. rewrite sin_0 in H. lra.
  - apply Rnot_le_lt. intros Hle.
    pose proof (sin_incr_1 (PI / 180) (asin t)) as H.
    pose proof sin_degree. lra.
Qed.

(** ** A point just south of the equator: (100, 0, -1) *)

Lemma south_norm : 100 < norm (100, 0, -1) < 101.
Proof.
  unfold norm. set (s := sqrt _).
  assert (0 <= s) as H0 by apply sqrt_pos.
  assert (s * s = 10001) as Hs.
  { unfold s. rewrite sqrt_sqrt; lra. }
  split; nra.
Qed.

Lemma south_shell : shell_index (100, 0, -1) = 1%Z.
Proof.
  unfold shell_index. pose proof south_norm as [Hlo Hhi].
  pose proof PI_gt_3. pose proof PI_4.
  rewrite (Zfloor_eq 0); [done|]. unfold DtoR. cbn [IZR]. split.
  - apply Rle_mult_inv_pos; [|lra]. apply Rmult_le_pos; lra.
  - apply Rmult_lt_reg_r with 10; [lra|].
    unfold Rdiv at 1. rewrite Rmult_assoc, Rinv_l by lra. nra.
Qed.

Lemma axis_ra (x : R) : 0 < x → ra_deg x 0 = 0.
Proof.
  intros Hx. unfold ra_deg.
  destruct (decide (x = 0)); [lra|].
  replace (0 / x) with 0 by (unfold Rdiv; lra). rewrite atan_0.
  destruct (decide (x < 0 ∧ 0 ≠ 0)) as [[? _]|_]; [lra|].
  destruct (decide (0 * RtoD < 0)); lra.
Qed.

Lemma south_dec : -1 < dec_deg (100, 0, -1) < 0.
Proof.
  unfold dec_deg. cbn [snd]. pose proof south_norm as [Hlo Hhi].
  set (s := norm _) in *.
  replace (-1 / s) with (- (1 / s)) by (field; lra).
  rewrite asin_opp.
  destruct (asin_small (1 / s)) as [Ha0 Ha1].
  { split.
    - apply Rdiv_pos_pos; lra.
    - unfold Rdiv. rewrite !Rmult_1_l. apply Rinv_lt_contravar; nra. }
  pose proof RtoD_pos as Hpos. pose proof (RtoD_PI 180) as H180.
  assert (asin (1 / s) * RtoD < PI / 180 * RtoD) as Hlt
    by (apply Rmult_lt_compat_r; lra).
  assert (0 < asin (1 / s) * RtoD) as Hgt by (apply Rmult_lt_0_compat; lra).
  lra.
Qed.

Lemma south_bins :
  floor_bin (100, 0, -1) = (0, 0, 89)%Z ∧ trunc_bin (100, 0, -1) = (0, 0, 90)%Z.
Proof.
  unfold floor_bin, trunc_bin. rewrite south_shell. cbn [fst snd].
  rewrite axis_ra by lra. pose proof south_dec as [Hlo Hhi].
  rewrite (Zfloor_eq 0) by (cbn [IZR]; lra).
  rewrite (Zfloor_eq (-1)) by (cbn [IZR]; lra).
  rewrite (trunc_negative _ 0) by (cbn [IZR]; lra).
  done.
Qed.

(** C2, as stated, fails: the point (100, 0, -1) lies in shell 1 at RA 0 and
    at a declination between -1 and 0 degrees, so that the bin of the claim
    is (0, floor(dec) + 90) = (0, 89), which [equator_mask] marks as not
    observed; the tests read the bin (0, 90) and answer "inside". *)
Lemma floor_bin_not_returned :
  mask_lookup equator_mask (floor_bin (100, 0, -1)) = Ok false ∧
  outcome (in_mask [(100, 0, -1)] equator_mask [0; 200]) = Ok [true] ∧
  outcome (not_in_mask [(100, 0, -1)] equator_mask 0 200) = Ok false ∧
  ¬ returns_flag_of floor_bin (100, 0, -1) equator_mask 0 200.
Proof.
  pose proof south_bins as [Hfloor Htrunc]. pose proof south_norm as [Hlo Hhi].
  assert (mask_lookup equator_mask (floor_bin (100, 0, -1)) = Ok false) as Hf.
  { rewrite Hfloor. vm_compute. reflexivity. }
  assert (mask_lookup equator_mask (trunc_bin (100, 0, -1)) = Ok true) as Ht.
  { rewrite Htrunc. vm_compute. reflexivity. }
  assert (outcome (in_mask [(100, 0, -1)] equator_mask [0; 200]) = Ok [true])
    as Hin.
  { rewrite in_mask_outcome by (reflexivity || (left; lra)). rewrite Ht.
    rewrite !bool_decide_eq_true_2 by lra. done. }
  split_and!; [done|done| |].
  - rewrite not_in_mask_outcome by (left; lra). rewrite Ht.
    rewrite !bool_decide_eq_false_2 by lra. done.
  - intros [Hclaim _]. cbn [point] in Hclaim. rewrite Hin, Hf in Hclaim.
    discriminate.
Qed.

(** C2, amended: for a point off the z-axis whose norm [r] lies inside the
    radial limits, the tests take the shell [n = 1 + floor(DtoR * r / 10)]
    and the bin [(floor(n*ra), trunc(n*dec) + 90*n)] of that shell, where
    [trunc] rounds toward zero; [in_mask] returns the flag stored there and
    [not_in_mask] its negation (both raise the [IndexError] of the lookup
    when the bin is outside the mask).  For a point that is not south of
    the equator this is the bin of the claim.  The mask has at most [2^54]
    shells, so that the [int64] shell number of [in_mask] is exact. *)
Theorem containment_returns_trunc_bin
    (x y z : R) (survey_mask : list (list (list bool))) (rmin rmax : R) :
  x ≠ 0 ∨ y ≠ 0 →
  rmin <= norm (x, y, z) <= rmax →
  int64_mask survey_mask →
  returns_flag_of trunc_bin (x, y, z) survey_mask rmin rmax ∧
  (0 <= z → trunc_bin (x, y, z) = floor_bin (x, y, z)).
Proof.
  intros Haxis [Hmin Hmax] Hlen%int64_mask_array. split; [split|].
  - cbn [point]. rewrite in_mask_outcome by done.
    rewrite !bool_decide_eq_true_2 by lra.
    destruct (mask_lookup _ _) as [[]|]; done.
  - cbn [point]. rewrite not_in_mask_outcome by done.
    by rewrite !bool_decide_eq_false_2 by lra.
  - intros Hz. unfold trunc_bin, floor_bin. do 2 f_equal.
    apply trunc_nonneg. apply Rmult_le_pos.
    + apply IZR_le. pose proof (shell_index_pos x y z). lia.
    + unfold dec_deg. cbn [snd]. apply Rmult_le_pos; [|left; apply RtoD_pos].
      assert (0 < norm (x, y, z)) as Hr by (apply norm_pos; tauto).
      pose proof (norm_bounds_z x y z) as [_ Hzr].
      apply asin_nonneg. split.
      * apply Rle_mult_inv_pos; lra.
      * apply Rmult_le_reg_r with (norm (x, y, z)); [done|].
        unfold Rdiv. rewrite Rmult_assoc, Rinv_l by lra. lra.
Qed.

(** The point (100, 0, -1) between the limits 0 and 200. *)
Lemma containment_returns_trunc_bin_witness :
  returns_flag_of trunc_bin (100, 0, -1) equator_mask 0 200 ∧
  (0 <= -1 → trunc_bin (100, 0, -1) = floor_bin (100, 0, -1)).
Proof.
  apply (containment_returns_trunc_bin 100 0 (-1) equator_mask 0 200).
  - left. lra.
  - pose proof south_norm. lra.
  - unfold int64_mask. cbn. lia.
Defined.

Lemma mask_bin_fin (survey_mask : list (list (list bool))) (n : Z)
    (ra dec : R) :
  mask_bin survey_mask n (Fin ra) (Fin dec)
  = shell ← mask_getitem survey_mask (n - 1)%Z;
    row ← mask_getitem shell (trunc (ra * IZR n));
    mask_getitem row (trunc (dec * IZR n) - n * dec_offset)%Z.
Proof.
  unfold mask_bin, mask_getitem, lift. cbn [fscale py_int].
  destruct (getitem survey_mask _) as [shell|e]; [|done].
  cbn [mbind traced_bind]. destruct (getitem shell _) as [row|e]; [|done].
  cbn. by destruct (getitem row _).
Qed.

(** The first two subscripts of a test whose shell the mask has: the shell
    and the RA index. *)
Lemma mask_bin_reads {B : Type} (survey_mask : list (list (list bool)))
    (n : Z) (ra dec : R) (shell : list (list bool)) (f : bool → traced B) :
  getitem survey_mask (n - 1) = Ok shell →
  ∃ rest, reads (mask_bin survey_mask n (Fin ra) (Fin dec) ≫= f)
          = (n - 1)%Z :: trunc (ra * IZR n) :: rest.
Proof.
  intros Hshell. rewrite mask_bin_fin. unfold mask_getitem, reads.
  rewrite Hshell. cbn [mbind traced_bind].
  destruct (getitem shell _) as [row|e]; [|by eexists].
  cbn [mbind traced_bind]. destruct (getitem row _) as [flag|e]; [|by eexists].
  cbn [mbind traced_bind]. destruct (f flag) as [t res]. by eexists.
Qed.

Lemma shell_int64 (survey_mask : list (list (list bool))) (c : R * R * R)
    (shell : list (list bool)) :
  (Z.of_nat (length survey_mask) < 2 ^ 63)%Z →
  getitem survey_mask (shell_index c - 1) = Ok shell →
  (1 + astype_int (Fin (DtoR * norm c / 10)))%Z = shell_index c ∧
  (1 + trunc (DtoR * norm c / 10))%Z = shell_index c.
Proof.
  intros Hlen Hshell. unfold shell_index in *.
  destruct (shell_number (norm c) (norm_nonneg c)) as [Ht _].
  split; [|by rewrite Ht].
  destruct (shell_number_int64 survey_mask (norm c) (norm_nonneg c) Hlen)
    as [->|[_ Hout]]; [done|].
  by apply getitem_inside in Hshell.
Qed.





Lemma first_shell (r : R) : 0 <= r < 400 → trunc (DtoR * r / 10) = 0%Z.
Proof.
  intros [Hlo Hhi]. destruct (shell_number r Hlo) as [-> _].
  pose proof PI_gt_3. pose proof PI_4.
  apply Zfloor_eq. unfold DtoR. cbn [IZR].
  assert (0 <= PI / 180 * r < 10) as Hb by nra. lra.
Qed.

Lemma shell_index_first (c : R * R * R) : norm c < 400 → shell_index c = 1%Z.
Proof.
  intros Hr. unfold shell_index.
  destruct (shell_number (norm c) (norm_nonneg c)) as [<- _].
  rewrite first_shell; [done|]. split; [apply norm_nonneg|done].
Qed.


Lemma norm_axis_z : norm (0, 0, 1) = 1.
Proof.
  unfold norm. replace (0 * 0 + 0 * 0 + 1 * 1) with 1 by lra. apply sqrt_1.
Qed.

Lemma norm_axis_y : norm (0, 1, 0) = 1.
Proof.
  unfold norm. replace (0 * 0 + 1 * 1 + 0 * 0) with 1 by lra. apply sqrt_1.
Qed.

Lemma mask_ra_at_zero (x : coord) (y : R) :
  val x = 0 → y ≠ 0 → mask_ra x y = Fin (IZR (ra_at_zero x y)).
Proof.
  intros Hx Hy. pose proof (RtoD_PI 2) as H2. unfold mask_ra, ra_at_zero.
  rewrite Hx. rewrite (bool_decide_eq_false_2 (0 < 0)) by lra. cbn [andb val].
  destruct x as [x0|]; cbn [val] in Hx; [subst x0|]; unfold fdiv;
    rewrite ?(decide_True (P := 0 = 0)) by done;
    (destruct (decide (0 < y)); [|rewrite (decide_True (P := y < 0)) by lra]);
    cbn [arctan fscale flt]; case_bool_decide; cbn [fadd]; try lra;
    f_equal; lra.
Qed.

(** C4, as stated, fails: [x = 0] is not special-cased, the quotient [y/x]
    is taken as it is.  With [x = 0] it is not a number that [arctan]
    maps to an angle of the point: it is infinite for [y ≠ 0], and for
    [y = 0] it is [nan], which both tests carry into [int()], where they
    raise [ValueError].  And for [y > 0] the right ascension is not always
    90 degrees: at the negative zero [x = -0.0] it is 270 degrees. *)
Lemma division_by_zero_x_not_avoided :
  (∀ q, fdiv 1 0 ≠ Fin q) ∧ (∀ q, fdiv 0 0 ≠ Fin q) ∧
  mask_ra 0 0 = NaN ∧
  outcome (not_in_mask [(0, 0, 1)] [[]] 0 10) = Raise ValueError ∧
  outcome (in_mask [(0, 0, 1)] [[]] [0; 10]) = Raise ValueError ∧
  mask_ra NegZero 1 = Fin 270.
Proof.
  assert (fdiv 1 0 = PInf) as H1.
  { unfold fdiv. destruct (decide (0 = 0)); [|done].
    destruct (decide (0 < 1)); [done|lra]. }
  assert (fdiv 0 0 = NaN) as H0.
  { unfold fdiv. destruct (decide (0 = 0)); [|done].
    destruct (decide (0 < 0)); [lra|done]. }
  assert (mask_ra 0 0 = NaN) as Hra.
  { unfold mask_ra. cbn [val]. rewrite H0. cbn [arctan fscale].
    rewrite bool_decide_eq_false_2 by lra. done. }
  split_and!; [by rewrite H1|by rewrite H0|done| | |].
  - rewrite not_in_mask_first_row. cbn [vals val fst snd]. rewrite norm_axis_z.
    rewrite !bool_decide_eq_false_2 by lra. cbn [orb].
    rewrite first_shell by lra. rewrite Hra. reflexivity.
  - rewrite in_mask_row. cbn [vals val fst snd]. rewrite norm_axis_z.
    rewrite astype_int_fits; rewrite first_shell by lra;
      [|unfold int64_min, int64_max; lia].
    rewrite Hra. reflexivity.
  - rewrite (mask_ra_at_zero NegZero 1); [|done|lra]. unfold ra_at_zero.
    by rewrite decide_True by lra.
Qed.

(** C4, amended: the tests do not special-case [x = 0]; they divide [y] by
    [x] in floating point.  With [x = 0.0] the quotient is [+inf] for
    [y > 0], which yields RA = 90 degrees, and [-inf] for [y < 0], which
    yields RA = 270 degrees; with the negative zero [x = -0.0] the two
    infinities are exchanged: RA = 270 degrees for [y > 0] and 90 degrees
    for [y < 0].  For a point within the radial limits whose shell [n] the
    mask (of at most [2^54] shells) has, the first two subscripts of
    [not_in_mask] and of [in_mask] on the mask are the shell [n - 1] and
    the RA index [90 * n] or [270 * n]. *)
Theorem ra_at_zero_x
    (x : coord) (y z : R) (survey_mask : list (list (list bool)))
    (rmin rmax : R) (shell : list (list bool)) :
  val x = 0 → y ≠ 0 →
  rmin <= norm (0, y, z) <= rmax →
  int64_mask survey_mask →
  getitem survey_mask (shell_index (0, y, z) - 1) = Ok shell →
  ∃ rest rest',
    reads (not_in_mask [(x, y, z)] survey_mask rmin rmax)
    = (shell_index (0, y, z)%R - 1)%Z
      :: (ra_at_zero x y * shell_index (0, y, z)%R)%Z :: rest ∧
    reads (in_mask [(x, y, z)] survey_mask [rmin; rmax])
    = (shell_index (0, y, z)%R - 1)%Z
      :: (ra_at_zero x y * shell_index (0, y, z)%R)%Z :: rest'.
Proof.
  intros Hx Hy [Hmin Hmax] Hlen%int64_mask_array Hshell.
  pose proof (mask_ra_at_zero x y Hx Hy) as Hmra.
  destruct (mask_dec_value 0 y z) as [Hmdec _]; [right; by left|].
  destruct (shell_int64 survey_mask (0, y, z) shell Hlen Hshell) as [Hn64 Hn].
  assert (trunc (IZR (ra_at_zero x y) * IZR (shell_index (0, y, z)))
          = (ra_at_zero x y * shell_index (0, y, z)%R)%Z) as Hidx
    by (by rewrite <- mult_IZR, trunc_IZR).
  destruct (mask_bin_reads survey_mask (shell_index (0, y, z))
              (IZR (ra_at_zero x y)) (dec_deg (0, y, z)) shell
              (λ flag, mret (negb flag)) Hshell) as [rest Hrest].
  destruct (mask_bin_reads survey_mask (shell_index (0, y, z))
              (IZR (ra_at_zero x y)) (dec_deg (0, y, z)) shell
              (λ flag, mret [within_limits rmin rmax flag (x, Re y, Re z)])
              Hshell) as [rest' Hrest'].
  rewrite Hidx in Hrest, Hrest'.
  exists rest, rest'. split.
  - rewrite not_in_mask_first_row. cbn [vals val fst snd]. rewrite Hx.
    rewrite !bool_decide_eq_false_2 by lra. cbn [orb].
    by rewrite Hn, Hmra, Hmdec.
  - rewrite in_mask_row. cbn [vals val fst snd]. rewrite Hx.
    by rewrite Hn64, Hmra, Hmdec.
Qed.

(** The point (-0.0, 1, 0) under [equator_mask]: the RA index is 270. *)
Lemma ra_at_zero_x_witness :
  ∃ rest rest',
    reads (not_in_mask [(NegZero, 1, 0)] equator_mask 0 200)
    = (shell_index (0, 1, 0)%R - 1)%Z
      :: (ra_at_zero NegZero 1 * shell_index (0, 1, 0)%R)%Z :: rest ∧
    reads (in_mask [(NegZero, 1, 0)] equator_mask [0; 200])
    = (shell_index (0, 1, 0)%R - 1)%Z
      :: (ra_at_zero NegZero 1 * shell_index (0, 1, 0)%R)%Z :: rest'.
Proof.
  eapply (ra_at_zero_x NegZero 1 0 equator_mask 0 200).
  - reflexivity.
  - lra.
  - rewrite norm_axis_y. lra.
  - unfold int64_mask. cbn. lia.
  - rewrite shell_index_first by (rewrite norm_axis_y; lra). reflexivity.
Defined.

(** ** Rejection outside the radial limits *)

Lemma second_shell : trunc (DtoR * 600 / 10) = 1%Z.
Proof.
  destruct (shell_number 600) as [-> _]; [lra|].
  pose proof PI_gt_3. pose proof PI_4.
  apply Zfloor_eq. unfold DtoR. cbn [IZR]. lra.
Qed.

Lemma second_shell_int64 : astype_int (Fin (DtoR * 600 / 10)) = 1%Z.
Proof.
  rewrite astype_int_fits; rewrite second_shell; [done|].
  unfold int64_min, int64_max. lia.
Qed.

Lemma in_mask_beyond (shells : list (list (list bool))) :
  in_mask [(600, 0, 0)] shells [0; 500]
  = flag ← mask_bin shells 2 (Fin 0) (Fin 0); mret [false].
Proof.
  assert (norm (600, 0, 0) = 600) as Hr by (apply norm_axis_x; lra).
  rewrite in_mask_row. cbn [vals val fst snd]. rewrite Hr, second_shell_int64.
  destruct (mask_ra_value 600 0) as [-> _]; [left; lra|].
  rewrite axis_ra by lra.
  unfold mask_dec. rewrite fdiv_nonzero by lra.
  replace (0 / 600) with 0 by lra. cbn [arcsin].
  rewrite decide_True by lra. rewrite asin_0. cbn [fscale].
  replace (0 * RtoD) with 0 by lra. change (1 + 1)%Z with 2%Z.
  destruct (mask_bin _ _ _ _) as [t [flag|e]]; [|done].
  cbn [mbind traced_bind mret traced_ret]. do 3 f_equal.
  unfold within_limits. cbn [vals val]. rewrite Hr.
  rewrite (bool_decide_eq_false_2 (600 <= 500)) by lra.
  by rewrite andb_false_r.
Qed.

Lemma mask_bin_origin (survey_mask : list (list (list bool))) (n : Z) :
  mask_bin survey_mask n (Fin 0) (Fin 0)
  = shell ← mask_getitem survey_mask (n - 1)%Z;
    row ← mask_getitem shell 0%Z;
    mask_getitem row (- (n * dec_offset))%Z.
Proof.
  rewrite mask_bin_fin.
  replace (0 * IZR n) with (IZR 0) by (cbn [IZR]; lra).
  by rewrite trunc_IZR.
Qed.

(** C5: [in_mask] does not reject before it reads.  The point (600, 0, 0)
    lies beyond [rmax = 500], in shell 2.  [not_in_mask] answers "outside"
    without a single subscript on the mask.  [in_mask] subscripts the mask
    first: on a mask of one shell it raises [IndexError] at the subscript
    [1], and on a mask that has the shell it reads the bin [1][0][180]
    before it answers [False]. *)
Theorem in_mask_reads_before_rejecting (shell : list (list bool)) :
  not_in_mask [(600, 0, 0)] [shell] 0 500 = ([], Ok true) ∧
  in_mask [(600, 0, 0)] [shell] [0; 500] = ([1%Z], Raise IndexError) ∧
  in_mask [(600, 0, 0)] [shell; replicate 720 (replicate 360 true)] [0; 500]
  = ([1; 0; 180]%Z, Ok [false]).
Proof.
  assert (norm (600, 0, 0) = 600) as Hr by (apply norm_axis_x; lra).
  split_and!.
  - rewrite not_in_mask_first_row. cbn [vals val]. rewrite Hr.
    rewrite (bool_decide_eq_true_2 (600 > 500)) by lra.
    by rewrite orb_true_r.
  - rewrite in_mask_beyond, mask_bin_origin. reflexivity.
  - rewrite in_mask_beyond, mask_bin_origin. reflexivity.
Qed.

(** C9: for one row with [x ≠ 0] whose bin lies within the mask arrays (of
    a mask of at most [2^54] shells, so that the [int64] shell number of
    [in_mask] is exact), [in_mask] on the limits
    [[rmin, rmax]] returns the negation of what [not_in_mask] returns on
    [rmin] and [rmax], also when [r] equals one of the limits. *)
Theorem in_mask_negates_not_in_mask
    (x y z : R) (survey_mask : list (list (list bool))) (rmin rmax : R)
    (flag : bool) :
  x ≠ 0 →
  int64_mask survey_mask →
  mask_lookup survey_mask (trunc_bin (x, y, z)) = Ok flag →
  ∃ outside,
    outcome (not_in_mask [(x, y, z)] survey_mask rmin rmax) = Ok outside ∧
    outcome (in_mask [(x, y, z)] survey_mask [rmin; rmax]) = Ok [negb outside] ∧
    (outside = false ↔ flag = true ∧ rmin <= norm (x, y, z) <= rmax).
Proof.
  intros Hx Hlen%int64_mask_array Hflag.
  rewrite not_in_mask_outcome, in_mask_outcome by (done || by left).
  rewrite Hflag.
  destruct (decide (norm (x, y, z) < rmin)) as [Hlo|Hlo];
    [|destruct (decide (norm (x, y, z) > rmax)) as [Hhi|Hhi]].
  - exists true. rewrite (bool_decide_eq_true_2 _ Hlo).
    rewrite (bool_decide_eq_false_2 (_ >= _)) by lra.
    cbn. rewrite andb_false_r. split_and!; [done..|].
    split; [done|]. intros [_ ?]. lra.
  - exists true. rewrite (bool_decide_eq_true_2 _ Hhi).
    rewrite (bool_decide_eq_false_2 (_ <= _)) by lra.
    cbn. rewrite orb_true_r, andb_false_r. split_and!; [done..|].
    split; [done|]. intros [_ ?]. lra.
  - exists (negb flag). rewrite !bool_decide_eq_false_2 by done.
    rewrite !bool_decide_eq_true_2 by lra.
    cbn. rewrite !andb_true_r, negb_involutive. split_and!; [done..|].
    destruct flag; cbn; split; try done; try (intros [? _]; done).
    intros _. split; [done|lra].
Qed.

(** The point (100, 0, -1), whose bin [equator_mask] marks as observed. *)
Lemma in_mask_negates_not_in_mask_witness :
  ∃ outside,
    outcome (not_in_mask [(100, 0, -1)] equator_mask 0 200) = Ok outside ∧
    outcome (in_mask [(100, 0, -1)] equator_mask [0; 200]) = Ok [negb outside] ∧
    (outside = false ↔ true = true ∧ 0 <= norm (100, 0, -1) <= 200).
Proof.
  apply (in_mask_negates_not_in_mask 100 0 (-1) equator_mask 0 200 true).
  - lra.
  - unfold int64_mask. cbn. lia.
  - destruct south_bins as [_ ->]. vm_compute. reflexivity.
Defined.

(** * Further properties *)

(** ** The galaxy mesh *)

Lemma nd_total_insert (m : gmap (nat * nat * nat) Z) (k : nat * nat * nat)
    (v : Z) :
  map_fold (λ _ v total, (v + total)%Z) 0%Z (<[k := v]> m)
  = (v - default 0%Z (m !! k) + map_fold (λ _ v total, (v + total)%Z) 0%Z m)%Z.
Proof.
  assert (∀ (m' : gmap (nat * nat * nat) Z) w, m' !! k = None →
            map_fold (λ _ v total, (v + total)%Z) 0%Z (<[k := w]> m')
            = (w + map_fold (λ _ v total, (v + total)%Z) 0%Z m')%Z) as Hfresh.
  { intros m' w Hk. rewrite map_fold_insert_L; [done| |done]. intros. lia. }
  destruct (m !! k) as [w|] eqn:Hk; cbn.
  - rewrite <- (insert_delete_eq m k v), Hfresh by apply lookup_delete_eq.
    rewrite <- (insert_delete_id m k w Hk) at 2.
    rewrite Hfresh by apply lookup_delete_eq. lia.
  - rewrite Hfresh by done. lia.
Qed.

Lemma nd_incr_total (a a' : ndarray3) (c : Z * Z * Z) :
  nd_incr a c = Ok a' →
  nd_shape a' = nd_shape a ∧ nd_total a' = (nd_total a + 1)%Z.
Proof.
  unfold nd_incr. destruct (nd_shape a) as [[nx ny] nz] eqn:Hs.
  destruct c as [[i j] k].
  destruct (wrap_index nx i) as [i'|]; [|done].
  destruct (wrap_index ny j) as [j'|]; [|done].
  destruct (wrap_index nz k) as [k'|]; [|done]. cbn.
  intros [= <-]. split; [done|].
  unfold nd_total, nd_get. cbn. rewrite nd_total_insert. lia.
Qed.

Lemma for_each_total (cells : list (Z * Z * Z)) (a a' : ndarray3) :
  for_each nd_incr cells a = Ok a' →
  nd_shape a' = nd_shape a ∧
  nd_total a' = (nd_total a + Z.of_nat (length cells))%Z.
Proof.
  revert a. induction cells as [|c cells IH]; intros a; cbn [for_each].
  - intros [= <-]. split; [done|]. cbn. lia.
  - destruct (nd_incr a c) as [a1|e] eqn:H1; [|done].
    change (Ok a1 ≫= ?f) with (f a1). cbv beta. intros Hrun.
    destruct (nd_incr_total _ _ _ H1) as [Hs1 Ht1].
    destruct (IH _ Hrun) as [Hs Ht]. split; [congruence|].
    rewrite Ht, Ht1. cbn [length]. lia.
Qed.

(** X1: whenever [mesh_galaxies] returns, the counts of the array it
    returns add up to the number of galaxies and the array has the shape
    [N_boxes]: every galaxy is counted once, in exactly one cell. *)
Theorem mesh_galaxies_counts_every_galaxy
    (galaxy_coords : list (R * R * R)) (coord_min : R * R * R)
    (grid_side_length : R) (N_boxes : Z * Z * Z) (ngal : ndarray3) :
  mesh_galaxies galaxy_coords coord_min grid_side_length N_boxes = Ok ngal →
  nd_shape ngal = N_boxes ∧
  nd_total ngal = Z.of_nat (length galaxy_coords).
Proof.
  rewrite mesh_galaxies_loop.
  destruct (np_zeros3 N_boxes) as [a|e] eqn:Hz; [|done].
  apply np_zeros3_ok in Hz as ->.
  change (Ok ?x ≫= ?f) with (f x). cbv beta. intros Hrun.
  destruct (for_each_total _ _ _ Hrun) as [Hs Ht].
  split; [done|]. rewrite Ht, length_fmap.
  unfold nd_total. cbn. rewrite map_fold_empty. lia.
Qed.

(** Two galaxies in two cells of a grid of shape (2,1,1). *)
Lemma mesh_galaxies_counts_every_galaxy_witness :
  nd_shape (Ndarray3 (2, 1, 1)%Z
              {[ (0, 0, 0)%nat := 1%Z; (1, 0, 0)%nat := 1%Z ]}) = (2, 1, 1)%Z ∧
  nd_total (Ndarray3 (2, 1, 1)%Z
              {[ (0, 0, 0)%nat := 1%Z; (1, 0, 0)%nat := 1%Z ]})
  = Z.of_nat (length [(0, 0, 0); (1, 0, 0)]).
Proof.
  apply (mesh_galaxies_counts_every_galaxy
           [(0, 0, 0); (1, 0, 0)] (0, 0, 0) 1 (2, 1, 1)%Z).
  apply (proj1 mesh_example).
Defined.

Lemma trunc_small (v : R) : -1 < v < 1 → trunc v = 0%Z.
Proof.
  intros [Hlo Hhi]. unfold trunc. destruct (decide (v < 0)).
  - apply Zceil_eq. cbn [IZR]. lra.
  - apply Zfloor_eq. cbn [IZR]. lra.
Qed.

Lemma cell_index_near (x x0 edge : R) :
  0 < edge → Rabs (x - x0) < edge → astype_int (fdiv (x - x0) edge) = 0%Z.
Proof.
  intros Hedge Habs. apply Rabs_def2 in Habs as [Hhi Hlo].
  rewrite fdiv_nonzero by lra.
  assert (trunc ((x - x0) / edge) = 0%Z) as Ht.
  { apply trunc_small.
    assert ((x - x0) / edge * edge = x - x0) as Hq by (field; lra).
    set (q := (x - x0) / edge) in *. split; nra. }
  rewrite astype_int_fits; rewrite Ht; [done|].
  unfold int64_min, int64_max. lia.
Qed.

(** X3: with a positive cell edge, a galaxy that is less than one cell edge
    away from [coord_min] in every coordinate, on either side, is given
    the cell (0,0,0) by [mesh_galaxies_dict]: the quotient is rounded toward
    zero, so that the cells of index 0 are two edge lengths wide. *)
Theorem mesh_cell_zero_is_double
    (galaxy_coords : list (R * R * R)) (coord_min : R * R * R)
    (grid_side_length : R) (g : R * R * R) :
  0 < grid_side_length →
  g ∈ galaxy_coords →
  near_min coord_min grid_side_length g →
  mesh_galaxies_dict galaxy_coords coord_min grid_side_length !! (0, 0, 0)%Z
  = Some 1%Z.
Proof.
  intros Hedge Hin Hnear. rewrite mesh_galaxies_dict_cells.
  rewrite decide_True; [done|].
  apply list_elem_of_fmap. exists g. split; [|done].
  destruct g as [[x y] z], coord_min as [[x0 y0] z0].
  destruct Hnear as (Hx & Hy & Hz). unfold trunc_cell.
  by rewrite !cell_index_near.
Qed.

(** A galaxy half an edge below the minimum corner in x. *)
Lemma mesh_cell_zero_is_double_witness :
  mesh_galaxies_dict [(-1, 0, 0)] (0, 0, 0) 2 !! (0, 0, 0)%Z = Some 1%Z.
Proof.
  apply (mesh_cell_zero_is_double [(-1, 0, 0)] (0, 0, 0) 2 (-1, 0, 0)).
  - lra.
  - apply list_elem_of_singleton. reflexivity.
  - cbn. repeat split; apply Rabs_def1; lra.
Defined.

Lemma wrap_key_error (shape c : Z * Z * Z) (e : exn) :
  wrap_key shape c = Raise e → e = IndexError.
Proof.
  unfold wrap_key, wrap_index. destruct shape as [[nx ny] nz], c as [[i j] k].
  repeat (destruct (decide _); cbn); congruence.
Qed.

Lemma nd_incr_commute (a : ndarray3) (c1 c2 : Z * Z * Z) :
  (a1 ← nd_incr a c1; nd_incr a1 c2) = (a2 ← nd_incr a c2; nd_incr a2 c1).
Proof.
  rewrite !nd_incr_key.
  destruct (wrap_key (nd_shape a) c1) as [k1|e1] eqn:H1;
    destruct (wrap_key (nd_shape a) c2) as [k2|e2] eqn:H2;
    cbn; rewrite ?nd_incr_key; cbn; rewrite ?H1, ?H2; cbn.
  - unfold nd_get. cbn. f_equal. f_equal.
    destruct (decide (k1 = k2)) as [->|Hne].
    + done.
    + rewrite !lookup_insert_ne by done. by apply insert_insert_ne.
  - done.
  - done.
  - apply wrap_key_error in H1, H2. by subst.
Qed.

Lemma for_each_perm {St A : Type} (body : St → A → result St) (l l' : list A) :
  (∀ s a b, (s1 ← body s a; body s1 b) = (s2 ← body s b; body s2 a)) →
  l ≡ₚ l' → ∀ s, for_each body l s = for_each body l' s.
Proof.
  intros Hcomm Hperm. induction Hperm as [|x l l' _ IH|x y l|l l' l'' _ IH1 _ IH2];
    intros s.
  - done.
  - cbn [for_each]. destruct (body s x) as [s'|e]; [|done]. apply IH.
  - cbn [for_each]. pose proof (Hcomm s y x) as H.
    destruct (body s y) as [s1|e1], (body s x) as [s2|e2]; cbn in *.
    + by rewrite H.
    + destruct (body s1 x); [discriminate|]. done.
    + destruct (body s2 y); [discriminate|]. done.
    + done.
  - by rewrite IH1.
Qed.

(** X4: neither mesh function depends on the order of the galaxies: on a
    permutation of the galaxy list [mesh_galaxies] returns the same array,
    or raises the same exception, and [mesh_galaxies_dict] returns the same
    dictionary. *)
Theorem mesh_order_independent
    (galaxy_coords galaxy_coords' : list (R * R * R)) (coord_min : R * R * R)
    (grid_side_length : R) (N_boxes : Z * Z * Z) :
  galaxy_coords ≡ₚ galaxy_coords' →
  mesh_galaxies galaxy_coords coord_min grid_side_length N_boxes
  = mesh_galaxies galaxy_coords' coord_min grid_side_length N_boxes ∧
  mesh_galaxies_dict galaxy_coords coord_min grid_side_length
  = mesh_galaxies_dict galaxy_coords' coord_min grid_side_length.
Proof.
  intros Hperm.
  assert (trunc_cell coord_min grid_side_length <$> galaxy_coords
          ≡ₚ trunc_cell coord_min grid_side_length <$> galaxy_coords') as Hcells
    by (by apply fmap_Permutation).
  split.
  - rewrite !mesh_galaxies_loop. destruct (np_zeros3 N_boxes) as [a|e]; [|done].
    change (Ok a ≫= ?f) with (f a). cbv beta.
    apply for_each_perm; [|by apply fmap_Permutation].
    intros s c1 c2. apply nd_incr_commute.
  - apply map_eq. intros c. rewrite !mesh_galaxies_dict_cells.
    destruct (decide (c ∈ _)) as [Hin|Hnin].
    + rewrite decide_True; [done|]. by rewrite <- Hcells.
    + rewrite decide_False; [done|]. by rewrite <- Hcells.
Qed.

(** Two galaxies, swapped. *)
Lemma mesh_order_independent_witness :
  mesh_galaxies [(0, 0, 0); (1, 0, 0)] (0, 0, 0) 1 (2, 1, 1)%Z
  = mesh_galaxies [(1, 0, 0); (0, 0, 0)] (0, 0, 0) 1 (2, 1, 1)%Z ∧
  mesh_galaxies_dict [(0, 0, 0); (1, 0, 0)] (0, 0, 0) 1
  = mesh_galaxies_dict [(1, 0, 0); (0, 0, 0)] (0, 0, 0) 1.
Proof.
  apply (mesh_order_independent [(0, 0, 0); (1, 0, 0)] [(1, 0, 0); (0, 0, 0)]
           (0, 0, 0) 1 (2, 1, 1)%Z).
  apply perm_swap.
Defined.

(** ** [in_survey] *)

Lemma in_survey_loop_missing (coordinates : Table)
    (min_limit max_limit : gmap string R) (names : list string)
    (good0 : list bool) :
  (∀ name, name ∈ names → ∃ col, column coordinates name = Ok col) →
  (∃ name, name ∈ names ∧
     (min_limit !! name = None ∨ max_limit !! name = None)) →
  for_each (λ good name,
      col ← column coordinates name;
      lo ← limit min_limit name;
      let check_min := (λ v, bool_decide (v > lo)) <$> col in
      col' ← column coordinates name;
      hi ← limit max_limit name;
      let check_max := (λ v, bool_decide (v < hi)) <$> col' in
      Ok (np_all3 good check_min check_max)) names good0
  = Raise KeyError.
Proof.
  revert good0. induction names as [|name0 names IH]; intros good0 Hcols Hbad.
  - destruct Hbad as (name & Hin & _). by apply elem_of_nil in Hin.
  - destruct (Hcols name0) as [col Hcol]; [apply elem_of_cons; by left|].
    cbn [for_each]. rewrite Hcol. unfold limit.
    change (Ok col ≫= ?f) with (f col). cbv beta.
    destruct (min_limit !! name0) as [lo|] eqn:Hlo; [|done].
    change (Ok lo ≫= ?f) with (f lo). cbv beta zeta.
    change (Ok col ≫= ?f) with (f col). cbv beta.
    destruct (max_limit !! name0) as [hi|] eqn:Hhi; [|done].
    change (Ok hi ≫= ?f) with (f hi). cbv beta zeta.
    change (Ok ?x ≫= ?f) with (f x). cbv beta.
    apply IH.
    + intros name Hin. apply Hcols, elem_of_cons. by right.
    + destruct Hbad as (name & Hin & Hmiss).
      apply elem_of_cons in Hin as [->|Hin].
      * destruct Hmiss; congruence.
      * by exists name.
Qed.

(** X5: when one of the columns of the table has no minimum limit or no
    maximum limit, [in_survey] raises [KeyError], whatever the rows are and
    also when the table has no rows. *)
Theorem in_survey_missing_limit
    (coordinates : Table) (min_limit max_limit : gmap string R)
    (name : string) :
  name ∈ colnames coordinates →
  min_limit !! name = None ∨ max_limit !! name = None →
  in_survey coordinates min_limit max_limit = Raise KeyError.
Proof.
  intros Hin Hmiss. unfold in_survey. apply in_survey_loop_missing.
  - intros name' Hin'. destruct (column_elem_of _ _ Hin') as (col & Hc & _).
    by exists col.
  - by exists name.
Qed.

(** The example table with limits for the column [x] only. *)
Lemma in_survey_missing_limit_witness :
  in_survey example_table {[ "x"%string := 1 ]} {[ "x"%string := 5 ]}
  = Raise KeyError.
Proof.
  apply (in_survey_missing_limit example_table _ _ "y"%string).
  - apply elem_of_cons. right. apply list_elem_of_singleton. reflexivity.
  - left. reflexivity.
Defined.

Lemma in_survey_flags (coordinates : Table)
    (min_limit max_limit : gmap string R) :
  Forall (λ c, length c.2 = table_len coordinates) coordinates →
  (∀ name, name ∈ colnames coordinates →
     is_Some (min_limit !! name) ∧ is_Some (max_limit !! name)) →
  ∃ good,
    in_survey coordinates min_limit max_limit = Ok good ∧
    length good = table_len coordinates ∧
    ∀ i, good !! i = Some true ↔
         (i < table_len coordinates)%nat ∧
         ∀ name, name ∈ colnames coordinates →
           strictly_inside coordinates min_limit max_limit i name.
Proof.
  intros Hwf Hlim.
  destruct (in_survey_loop coordinates min_limit max_limit
              (table_len coordinates) (colnames coordinates)
              (replicate (table_len coordinates) true))
    as (good & Hrun & Hlen & Hgood).
  - intros name Hin. destruct (column_elem_of _ _ Hin) as (col & Hc & Hel).
    destruct (Hlim name Hin) as [[lo Hlo] [hi Hhi]].
    exists col, lo, hi. split_and!; [done| |done..].
    rewrite Forall_forall in Hwf. apply (Hwf _ Hel).
  - apply length_replicate.
  - exists good. split_and!; [done..|].
    intros i. rewrite Hgood. split.
    + intros [Hrep Hall]. split; [|done].
      apply lookup_replicate in Hrep. tauto.
    + intros [Hi Hall]. split; [|done]. by apply lookup_replicate_2.
Qed.

(** X6: on a well-formed table with limits for all its columns, a column
    whose minimum limit is not below its maximum limit excludes every row:
    all the flags that [in_survey] returns are [False]. *)
Theorem in_survey_empty_interval
    (coordinates : Table) (min_limit max_limit : gmap string R)
    (name : string) (lo hi : R) :
  Forall (λ c, length c.2 = table_len coordinates) coordinates →
  (∀ name, name ∈ colnames coordinates →
     is_Some (min_limit !! name) ∧ is_Some (max_limit !! name)) →
  name ∈ colnames coordinates →
  min_limit !! name = Some lo → max_limit !! name = Some hi → hi <= lo →
  in_survey coordinates min_limit max_limit
  = Ok (replicate (table_len coordinates) false).
Proof.
  intros Hwf Hlim Hin Hlo Hhi Hle.
  destruct (in_survey_flags coordinates min_limit max_limit Hwf Hlim)
    as (good & -> & Hlen & Hgood).
  f_equal. apply list_eq. intros i.
  destruct (decide (i < table_len coordinates)%nat) as [Hi|Hi].
  - rewrite lookup_replicate_2 by done.
    destruct (lookup_lt_is_Some_2 good i) as [b Hb]; [lia|].
    destruct b; [|done]. exfalso.
    apply Hgood in Hb as [_ Hall]. specialize (Hall name Hin).
    destruct (column_elem_of _ _ Hin) as (col & Hc & Hel).
    rewrite Forall_forall in Hwf. pose proof (Hwf _ Hel) as Hcl. cbn in Hcl.
    destruct (lookup_lt_is_Some_2 col i) as [v Hv]; [lia|].
    specialize (Hall col lo hi v Hc Hlo Hhi Hv). lra.
  - rewrite !lookup_ge_None_2; [done|rewrite length_replicate; lia|lia].
Qed.

(** The example table with the limits of [x] swapped. *)
Lemma in_survey_empty_interval_witness :
  in_survey example_table
    {[ "x"%string := 5; "y"%string := -1 ]} {[ "x"%string := 1; "y"%string := 1 ]}
  = Ok (replicate (table_len example_table) false).
Proof.
  apply (in_survey_empty_interval example_table _ _ "x"%string 5 1).
  - repeat constructor.
  - intros name Hin.
    apply elem_of_cons in Hin as [->|Hin];
      [|apply list_elem_of_singleton in Hin as ->];
      split; eexists; reflexivity.
  - apply elem_of_cons. by left.
  - reflexivity.
  - reflexivity.
  - lra.
Defined.

(** ** The containment tests *)

Lemma in_mask_angood_length (survey_mask : list (list (list bool)))
    (rows : list (Z * (float * float))) :
  ∀ angood, outcome (in_mask_angood survey_mask rows) = Ok angood →
            length angood = length rows.
Proof.
  induction rows as [|[n [ra dec]] rows IH]; intros angood.
  - by intros [= <-].
  - cbn [in_mask_angood]. rewrite !outcome_bind.
    destruct (outcome (mask_bin _ _ _ _)) as [flag|]; [|done].
    change (Ok flag ≫= ?f) with (f flag). cbv beta. rewrite outcome_bind.
    destruct (outcome (in_mask_angood _ _)) as [a|]; [|done].
    intros [= <-]. cbn. by rewrite (IH a).
Qed.

Lemma in_mask_angood_app (survey_mask : list (list (list bool)))
    (rows1 rows2 : list (Z * (float * float))) :
  in_mask_angood survey_mask (rows1 ++ rows2)
  = a1 ← in_mask_angood survey_mask rows1;
    a2 ← in_mask_angood survey_mask rows2;
    mret (a1 ++ a2).
Proof.
  induction rows1 as [|[n [ra dec]] rows1 IH].
  - cbn. destruct (in_mask_angood _ _) as [t [a|e]]; [|done].
    cbn. by rewrite app_nil_r.
  - cbn [app in_mask_angood]. rewrite IH.
    destruct (mask_bin _ _ _ _) as [t0 [flag|e]]; [|done].
    destruct (in_mask_angood survey_mask rows1) as [t1 [a1|e]];
      [|cbn; by rewrite ?app_nil_r].
    destruct (in_mask_angood survey_mask rows2) as [t2 [a2|e]];
      cbn; by rewrite ?app_nil_r, ?app_assoc.
Qed.

(** X7: [in_mask] treats every row on its own.  On the rows of two arrays
    put one after the other it subscripts the mask as it does on the first
    array and then as it does on the second, it raises the exception of the
    first row that fails, and it returns the flags of the first array
    followed by the flags of the second. *)
Theorem in_mask_concatenation
    (coordinates1 coordinates2 : list (coord * coord * coord))
    (survey_mask : list (list (list bool))) (rmin rmax : R) :
  in_mask (coordinates1 ++ coordinates2) survey_mask [rmin; rmax]
  = good1 ← in_mask coordinates1 survey_mask [rmin; rmax];
    good2 ← in_mask coordinates2 survey_mask [rmin; rmax];
    mret (good1 ++ good2).
Proof.
  rewrite !in_mask_rows, fmap_app, in_mask_angood_app.
  pose proof (in_mask_angood_length survey_mask (mask_row <$> coordinates1))
    as Hlen.
  destruct (in_mask_angood survey_mask (mask_row <$> coordinates1))
    as [t1 [a1|e]]; [|done].
  specialize (Hlen a1 eq_refl). rewrite length_fmap in Hlen.
  destruct (in_mask_angood survey_mask (mask_row <$> coordinates2))
    as [t2 [a2|e]]; cbn; rewrite ?app_nil_r; [|done].
  do 2 f_equal. by rewrite zip_with_app.
Qed.

Lemma trunc_bounds (v : R) (m : Z) :
  (1 ≤ m)%Z → - IZR m < v < IZR m → (- (m - 1) ≤ trunc v ≤ m - 1)%Z.
Proof.
  intros Hm [Hlo Hhi]. unfold trunc. destruct (decide (v < 0)) as [Hneg|Hpos].
  - pose proof (Zceil_bound v) as [Hc1 Hc2].
    assert (- m < Zceil v)%Z by (apply lt_IZR; rewrite opp_IZR; lra).
    assert (Zceil v < 1)%Z by (apply lt_IZR; cbn [IZR]; lra). lia.
  - pose proof (Zfloor_bound v) as [Hf1 Hf2].
    assert (Zfloor v < m)%Z by (apply lt_IZR; lra).
    assert (-1 < Zfloor v)%Z by (apply lt_IZR; cbn [IZR]; lra). lia.
Qed.

(** An angle of at most 360 degrees times a shell number of a mask of at
    most [2^54] shells fits into [int64]. *)
Lemma index_int64 (v : R) (n : Z) :
  -360 <= v <= 360 → (- 2 ^ 54 ≤ n ≤ 2 ^ 54)%Z →
  astype_int (Fin (v * IZR n)) = trunc (v * IZR n).
Proof.
  intros Hv Hn. apply astype_int_fits.
  assert (Rabs (v * IZR n) <= 360 * IZR (2 ^ 54)) as Habs.
  { rewrite Rabs_mult. apply Rmult_le_compat; try apply Rabs_pos.
    - apply Rabs_le. lra.
    - apply Rabs_le. rewrite <- opp_IZR. split; apply IZR_le; lia. }
  assert (- IZR (360 * 2 ^ 54 + 1) < v * IZR n < IZR (360 * 2 ^ 54 + 1)) as Hb.
  { rewrite plus_IZR, mult_IZR.
    pose proof (Rle_abs (v * IZR n)) as H1.
    pose proof (Rle_abs (- (v * IZR n))) as H2. rewrite Rabs_Ropp in H2.
    cbn [IZR IPR IPR_2] in *. lra. }
  pose proof (trunc_bounds _ (360 * 2 ^ 54 + 1) ltac:(lia) Hb) as Ht.
  unfold int64_min, int64_max. lia.
Qed.

Lemma in_mask_table_row (x y z : R) (survey_mask : list (list (list bool)))
    (rmin rmax : R) :
  x ≠ 0 ∨ y ≠ 0 →
  int64_mask survey_mask →
  in_mask_table (x, y, z) survey_mask [rmin; rmax]
  = flag ← mask_bin survey_mask
             (1 + astype_int (Fin (DtoR * norm (x, y, z) / 10)))
             (mask_ra x y) (mask_dec z (norm (x, y, z)));
    mret (within_limits rmin rmax flag (x, y, z)).
Proof.
  intros Haxis Hlen. unfold int64_mask in Hlen.
  unfold in_mask_table, to_vector, within_limits.
  cbn [vals val].
  change (fscale (arcsin (fdiv z (norm (x, y, z)))) RtoD)
    with (mask_dec z (norm (x, y, z))).
  change (if flt _ 0 then _ else _) with (mask_ra x y).
  change (getitem [rmin; rmax] 1) with (Ok rmax).
  change (getitem [rmin; rmax] 0) with (Ok rmin).
  destruct (mask_ra_value x y Haxis) as [-> [Hra0 Hra1]].
  destruct (mask_dec_value x y z) as [-> [Hd0 Hd1]]; [tauto|].
  rewrite mask_bin_fin. cbn [fscale]. unfold mask_getitem, lift.
  destruct (getitem survey_mask _) as [shell|e] eqn:Hshell; [|done].
  apply getitem_inside in Hshell.
  rewrite !index_int64 by (lra || lia).
  cbn [mbind traced_bind]. destruct (getitem shell _) as [row|e]; [|done].
  cbn [mbind traced_bind]. destruct (getitem row _) as [[]|e]; [| |done].
  - cbn [negb mbind traced_bind mret traced_ret andb].
    destruct (decide (norm (x, y, z) > rmax)) as [Hhi|Hhi].
    + rewrite (bool_decide_eq_true_2 _ Hhi).
      rewrite (bool_decide_eq_false_2 (_ <= _)) by lra. done.
    + rewrite (bool_decide_eq_false_2 _ Hhi).
      rewrite (bool_decide_eq_true_2 (_ <= _)) by lra.
      destruct (decide (norm (x, y, z) < rmin)) as [Hlo|Hlo].
      * rewrite (bool_decide_eq_true_2 _ Hlo).
        rewrite (bool_decide_eq_false_2 (_ >= _)) by lra. done.
      * rewrite (bool_decide_eq_false_2 _ Hlo).
        rewrite (bool_decide_eq_true_2 (_ >= _)) by lra. done.
  - done.
Qed.

(** X8: on a point off the z-axis and a mask of at most [2^54] shells (so
    that every index that is computed in a shell of the mask fits into
    [int64], where [astype(int)] and [int()] agree), the table variant [in_mask_table] and [in_mask] on the one-row
    array of the point subscript the mask in the same way, raise the same
    exception when the bin is outside the mask, and otherwise return the
    same flag. *)
Theorem in_mask_table_agrees
    (x y z : R) (survey_mask : list (list (list bool))) (rmin rmax : R) :
  x ≠ 0 ∨ y ≠ 0 →
  int64_mask survey_mask →
  reads (in_mask [(x, y, z)] survey_mask [rmin; rmax])
  = reads (in_mask_table (x, y, z) survey_mask [rmin; rmax]) ∧
  outcome (in_mask [(x, y, z)] survey_mask [rmin; rmax])
  = (λ flag : bool, [flag])
    <$> outcome (in_mask_table (x, y, z) survey_mask [rmin; rmax]).
Proof.
  intros Haxis Hlen. rewrite in_mask_row, in_mask_table_row by done.
  cbn [vals val fst snd].
  by destruct (mask_bin _ _ _ _) as [t [flag|e]].
Qed.

(** The point (100, 0, -1) under [equator_mask]. *)
Lemma in_mask_table_agrees_witness :
  reads (in_mask [(100, 0, -1)] equator_mask [0; 200])
  = reads (in_mask_table (100, 0, -1) equator_mask [0; 200]) ∧
  outcome (in_mask [(100, 0, -1)] equator_mask [0; 200])
  = (λ flag : bool, [flag])
    <$> outcome (in_mask_table (100, 0, -1) equator_mask [0; 200]).
Proof.
  apply (in_mask_table_agrees 100 0 (-1) equator_mask 0 200).
  - left. lra.
  - unfold int64_mask. cbn. lia.
Defined.

Lemma shell_entry_defined (rows cols : Z) (shell : list (list bool)) (i j : Z) :
  shell_dims rows cols shell → (0 ≤ i < rows)%Z → (0 ≤ j < cols)%Z →
  ∃ flag, mask_entry shell i j = Ok flag.
Proof.
  intros [Hrows Hcols] Hi Hj.
  destruct (lookup_lt_is_Some_2 shell (Z.to_nat i)) as [row Hrow]; [lia|].
  assert (Z.of_nat (length row) = cols) as Hrl.
  { rewrite Forall_lookup in Hcols. by apply (Hcols _ _ Hrow). }
  destruct (lookup_lt_is_Some_2 row (Z.to_nat j)) as [flag Hflag]; [lia|].
  exists flag. unfold mask_entry.
  rewrite (getitem_nonneg shell i), Hrow by lia.
  change (Ok row ≫= ?f) with (f row). cbv beta.
  by rewrite (getitem_nonneg row j), Hflag by lia.
Qed.

(** X10: a mask of one shell built by [build_mask] with 360 by 180 base
    bins answers the containment tests from the footprint it was built
    from.  For a point off the z-axis in shell 1 whose bin [(i, j)], as the
    tests compute it, lies in the array of 360 by 180 flags, [in_mask]
    returns [True] exactly when the norm of the point lies within the
    radial limits and the footprint lists the RA bin [i] together with the
    Dec bin [j - 90]; [not_in_mask] returns the negation. *)
Theorem build_mask_then_test (ras decs : list Z) :
  footprint_in_grid 360 180 1 ras decs →
  ∃ shell,
    build_mask 360 180 [(ras, decs)] = Ok [shell] ∧
    ∀ (x y z rmin rmax : R) (i j : Z),
      x ≠ 0 ∨ y ≠ 0 →
      trunc_bin (x, y, z) = (0, i, j)%Z →
      (0 ≤ i < 360)%Z → (0 ≤ j < 180)%Z →
      ∃ good,
        outcome (in_mask [(x, y, z)] [shell] [rmin; rmax]) = Ok [good] ∧
        outcome (not_in_mask [(x, y, z)] [shell] rmin rmax) = Ok (negb good) ∧
        (good = true ↔
           rmin <= norm (x, y, z) <= rmax ∧
           ∃ k, ras !! k = Some i ∧ decs !! k = Some (j - 90)%Z).
Proof.
  intros Hfoot.
  destruct (build_loop 360 180 ltac:(lia) ltac:(lia) [(ras, decs)] 0 [])
    as (mask & Hrun & Hlen & Hshells).
  { intros [|n] ras' decs'; [|done]. by intros [= <- <-]. }
  destruct (Hshells 0%nat ras decs eq_refl) as (shell & Hshell & Hdims & Hentries).
  destruct mask as [|shell' [|? ?]]; try done. injection Hshell as ->.
  exists shell. split.
  { unfold build_mask, build_shells. rewrite Hrun.
    change (Ok ?a ≫= ?f) with (f a). cbv beta.
    rewrite np_array_shells. by rewrite decide_True by (left; cbn; lia). }
  intros x y z rmin rmax i j Haxis Hbin Hi Hj.
  cbn in Hdims, Hentries.
  destruct (shell_entry_defined _ _ shell i j Hdims) as [flag Hflag]; [lia..|].
  assert (mask_lookup [shell] (trunc_bin (x, y, z)) = Ok flag) as Hlook.
  { rewrite Hbin. exact Hflag. }
  pose proof (in_mask_outcome x y z [shell] rmin rmax Haxis eq_refl) as Hin.
  pose proof (not_in_mask_outcome x y z [shell] rmin rmax Haxis) as Hnot.
  rewrite Hlook in Hin, Hnot.
  assert (flag = true ↔
          ∃ k, ras !! k = Some i ∧ decs !! k = Some (j - 90)%Z) as Hlisted.
  { specialize (Hentries i j ltac:(lia) ltac:(lia)). rewrite Hflag in Hentries.
    split.
    - intros ->. destruct Hentries as [H1 _].
      destruct (H1 eq_refl) as (k & dec & Hra & Hdec & Hb).
      exists k. split; [done|]. rewrite Hdec. f_equal. lia.
    - intros (k & Hra & Hdec). destruct Hentries as [_ He].
      assert (Ok flag = Ok true) as Heq; [|by injection Heq].
      apply He. exists k, (j - 90)%Z. split; [done|]. split; [done|lia]. }
  exists (flag && bool_decide (norm (x, y, z) <= rmax)
          && bool_decide (norm (x, y, z) >= rmin)).
  split; [exact Hin|]. split.
  - rewrite Hnot.
    destruct (decide (norm (x, y, z) < rmin)) as [Hlo|Hlo];
      [|destruct (decide (norm (x, y, z) > rmax)) as [Hhi|Hhi]].
    + rewrite (bool_decide_eq_true_2 _ Hlo).
      rewrite (bool_decide_eq_false_2 (_ >= _)) by lra.
      cbn. by rewrite andb_false_r.
    + rewrite (bool_decide_eq_true_2 _ Hhi).
      rewrite (bool_decide_eq_false_2 (_ <= _)) by lra.
      cbn. by rewrite orb_true_r, andb_false_r.
    + rewrite !bool_decide_eq_false_2 by done.
      rewrite !bool_decide_eq_true_2 by lra.
      cbn. by rewrite !andb_true_r.
  - rewrite !andb_true_iff, !bool_decide_eq_true, Hlisted.
    split; [intros [[? ?] ?]|intros [[? ?] ?]]; split_and!; try done; lra.
Qed.

(** The footprint of two bins of [example_footprint]. *)
Lemma build_mask_then_test_witness :
  ∃ shell,
    build_mask 360 180 [([0; 359], [-90; 89])%Z] = Ok [shell] ∧
    ∀ (x y z rmin rmax : R) (i j : Z),
      x ≠ 0 ∨ y ≠ 0 →
      trunc_bin (x, y, z) = (0, i, j)%Z →
      (0 ≤ i < 360)%Z → (0 ≤ j < 180)%Z →
      ∃ good,
        outcome (in_mask [(x, y, z)] [shell] [rmin; rmax]) = Ok [good] ∧
        outcome (not_in_mask [(x, y, z)] [shell] rmin rmax) = Ok (negb good) ∧
        (good = true ↔
           rmin <= norm (x, y, z) <= rmax ∧
           ∃ k, [0; 359]%Z !! k = Some i ∧ [-90; 89]%Z !! k = Some (j - 90)%Z).
Proof.
  apply (build_mask_then_test [0; 359]%Z [-90; 89]%Z).
  split; [done|]. split; repeat constructor; lia.
Defined.

Lemma norm_mirror (x y z : R) : norm (- x, y, z) = norm (x, y, z).
Proof. unfold norm. f_equal. lra. Qed.

Lemma mask_ra_axis (x : R) : x ≠ 0 → mask_ra x 0 = Fin 0.
Proof.
  intros Hx. unfold mask_ra. cbn [val]. rewrite fdiv_nonzero by done.
  replace (0 / x) with 0 by (unfold Rdiv; lra).
  cbn [arctan fscale]. rewrite atan_0.
  rewrite (bool_decide_eq_false_2 (0 ≠ 0)) by (intros H; by apply H).
  rewrite andb_false_r. cbn [flt].
  rewrite bool_decide_eq_false_2 by lra. f_equal. lra.
Qed.

(** X11: the tests do not tell the two halves of the x-axis plane apart at
    [y = 0].  A point with [y = 0] and [x ≠ 0] is given the right ascension
    0, also when [x] is negative, so that [not_in_mask] and [in_mask] treat
    the points (x, 0, z) and (-x, 0, z) alike: same subscripts on the mask,
    same result. *)
Theorem y_zero_is_mirrored
    (x z : R) (survey_mask : list (list (list bool))) (rmin rmax : R) :
  x ≠ 0 →
  mask_ra x 0 = Fin 0 ∧ mask_ra (- x) 0 = Fin 0 ∧
  not_in_mask [(- x, 0, z)] survey_mask rmin rmax
  = not_in_mask [(x, 0, z)] survey_mask rmin rmax ∧
  in_mask [(- x, 0, z)] survey_mask [rmin; rmax]
  = in_mask [(x, 0, z)] survey_mask [rmin; rmax].
Proof.
  intros Hx.
  assert (mask_ra x 0 = Fin 0) as Hra by (by apply mask_ra_axis).
  assert (mask_ra (- x) 0 = Fin 0) as Hra' by (apply mask_ra_axis; lra).
  split; [done|]. split; [done|]. split.
  - rewrite !not_in_mask_first_row. cbn [vals val fst snd].
    by rewrite norm_mirror, Hra, Hra'.
  - rewrite !in_mask_row. unfold within_limits. cbn [vals val fst snd].
    by rewrite norm_mirror, Hra, Hra'.
Qed.

(** The points (1, 0, 0) and (-1, 0, 0). *)
Lemma y_zero_is_mirrored_witness :
  mask_ra 1 0 = Fin 0 ∧ mask_ra (- 1) 0 = Fin 0 ∧
  not_in_mask [(- 1, 0, 0)] equator_mask 0 200
  = not_in_mask [(1, 0, 0)] equator_mask 0 200 ∧
  in_mask [(- 1, 0, 0)] equator_mask [0; 200]
  = in_mask [(1, 0, 0)] equator_mask [0; 200].
Proof.
  apply (y_zero_is_mirrored 1 0 equator_mask 0 200). lra.
Defined.

(** X12: [not_in_mask] looks at the first row of [coordinates] only, and
    when the norm of that row lies outside the radial limits it returns
    [True] without a single subscript on the mask: the result is the same
    for every mask, also for an empty one. *)
Theorem not_in_mask_outside_limits
    (c : coord * coord * coord) (rest : list (coord * coord * coord))
    (survey_mask : list (list (list bool))) (rmin rmax : R) :
  norm (vals c) < rmin ∨ norm (vals c) > rmax →
  not_in_mask (c :: rest) survey_mask rmin rmax = ([], Ok true).
Proof.
  intros Hr. rewrite not_in_mask_first_row.
  assert (bool_decide (norm (vals c) < rmin)
          || bool_decide (norm (vals c) > rmax) = true) as ->; [|done].
  apply orb_true_iff. destruct Hr; [left|right]; by apply bool_decide_eq_true_2.
Qed.

(** The point (600, 0, 0) beyond [rmax = 500], on an empty mask. *)
Lemma not_in_mask_outside_limits_witness :
  not_in_mask [(600, 0, 0); (1, 0, 0)] [] 0 500 = ([], Ok true).
Proof.
  apply (not_in_mask_outside_limits (600, 0, 0) [(1, 0, 0)] [] 0 500).
  right. cbn [vals val]. rewrite norm_axis_x; lra.
Defined.

(** X14: when [in_mask] returns, it returns one flag per row, and the flag
    of every row whose norm lies outside the radial limits is [False],
    whatever the mask holds. *)
Theorem in_mask_flags
    (coordinates : list (coord * coord * coord))
    (survey_mask : list (list (list bool)))
    (rmin rmax : R) (good : list bool) :
  outcome (in_mask coordinates survey_mask [rmin; rmax]) = Ok good →
  length good = length coordinates ∧
  ∀ i c, coordinates !! i = Some c →
         norm (vals c) < rmin ∨ norm (vals c) > rmax →
         good !! i = Some false.
Proof.
  rewrite in_mask_rows, outcome_bind.
  pose proof (in_mask_angood_length survey_mask (mask_row <$> coordinates))
    as Hlen.
  destruct (outcome (in_mask_angood _ _)) as [angood|e]; [|done].
  specialize (Hlen angood eq_refl). rewrite length_fmap in Hlen.
  intros [= <-]. split.
  - rewrite length_zip_with. lia.
  - intros i c Hc Hout. rewrite lookup_zip_with, Hc.
    destruct (lookup_lt_is_Some_2 angood i) as [flag ->].
    { apply lookup_lt_Some in Hc. lia. }
    cbn. f_equal. unfold within_limits.
    destruct Hout as [Hlo|Hhi].
    + rewrite (bool_decide_eq_false_2 (_ >= _)) by lra. apply andb_false_r.
    + rewrite (bool_decide_eq_false_2 (_ <= _)) by lra.
      by rewrite andb_false_r.
Qed.

(** The point (600, 0, 0) beyond [rmax = 500], on a mask of two shells. *)
Lemma in_mask_flags_witness :
  length [false] = length [point (600, 0, 0)] ∧
  ∀ i c, [point (600, 0, 0)] !! i = Some c →
         norm (vals c) < 0 ∨ norm (vals c) > 500 →
         [false] !! i = Some false.
Proof.
  apply (in_mask_flags [point (600, 0, 0)]
           [[]; replicate 720 (replicate 360 true)] 0 500 [false]).
  cbn [point]. rewrite in_mask_beyond, mask_bin_origin. reflexivity.
Defined.

(** ** [build_mask] *)

Lemma mask_entry_lookup (shell : list (list bool)) (a b : nat) (row : list bool)
    (flag : bool) :
  shell !! a = Some row → row !! b = Some flag →
  mask_entry shell (Z.of_nat a) (Z.of_nat b) = Ok flag.
Proof.
  intros Hrow Hflag. unfold mask_entry.
  rewrite (getitem_in_range _ _ _ Hrow).
  change (Ok row ≫= ?f) with (f row). cbv beta.
  by rewrite (getitem_in_range _ _ _ Hflag).
Qed.

Lemma shell_ext (rows cols : Z) (shell shell' : list (list bool)) :
  shell_dims rows cols shell → shell_dims rows cols shell' →
  (∀ a b, (0 ≤ a < rows)%Z → (0 ≤ b < cols)%Z →
     (mask_entry shell a b = Ok true ↔ mask_entry shell' a b = Ok true)) →
  shell = shell'.
Proof.
  intros [Hr Hc] [Hr' Hc'] Hent. apply list_eq. intros a.
  destruct (decide (a < length shell)%nat) as [Ha|Ha].
  - destruct (lookup_lt_is_Some_2 shell a Ha) as [row Hrow].
    destruct (lookup_lt_is_Some_2 shell' a) as [row' Hrow']; [lia|].
    rewrite Hrow, Hrow'. f_equal.
    rewrite Forall_lookup in Hc, Hc'.
    pose proof (Hc _ _ Hrow) as Hl. pose proof (Hc' _ _ Hrow') as Hl'.
    cbn in Hl, Hl'. apply list_eq. intros b.
    destruct (decide (b < length row)%nat) as [Hb|Hb].
    + destruct (lookup_lt_is_Some_2 row b Hb) as [f Hf].
      destruct (lookup_lt_is_Some_2 row' b) as [f' Hf']; [lia|].
      rewrite Hf, Hf'. f_equal.
      specialize (Hent (Z.of_nat a) (Z.of_nat b) ltac:(lia) ltac:(lia)).
      rewrite (mask_entry_lookup _ _ _ _ _ Hrow Hf) in Hent.
      rewrite (mask_entry_lookup _ _ _ _ _ Hrow' Hf') in Hent.
      destruct f, f'; try done.
      * destruct Hent as [H _]. by specialize (H eq_refl).
      * destruct Hent as [_ H]. by specialize (H eq_refl).
    + rewrite !lookup_ge_None_2; [done|lia..].
  - rewrite !lookup_ge_None_2; [done|lia..].
Qed.

(** X15: the mask that [build_mask] returns depends only on which bins
    each shell of the footprint lists, not on their order nor on how often a
    bin is listed: two footprints (with bins in the grid) that list the
    same bins shell by shell give the same mask. *)
Theorem build_mask_depends_on_bins_only
    (maskra maskdec : Z) (file file' : list (list Z * list Z)) :
  (0 ≤ maskra)%Z → (0 ≤ maskdec)%Z →
  length file = length file' →
  (∀ n ras decs, file !! n = Some (ras, decs) →
     footprint_in_grid maskra maskdec (Z.of_nat n + 1) ras decs) →
  (∀ n ras decs, file' !! n = Some (ras, decs) →
     footprint_in_grid maskra maskdec (Z.of_nat n + 1) ras decs) →
  (∀ n ras decs ras' decs',
     file !! n = Some (ras, decs) → file' !! n = Some (ras', decs') →
     ∀ bin, bin ∈ zip ras decs ↔ bin ∈ zip ras' decs') →
  build_mask maskra maskdec file = build_mask maskra maskdec file'.
Proof.
  intros Hra Hdec Hlen Hfile Hfile' Hsame.
  destruct (build_loop maskra maskdec Hra Hdec file 0 [])
    as (mask & Hrun & Hl & Hm).
  { intros n ras decs Hn. rewrite Nat.add_0_l. by apply Hfile. }
  destruct (build_loop maskra maskdec Hra Hdec file' 0 [])
    as (mask' & Hrun' & Hl' & Hm').
  { intros n ras decs Hn. rewrite Nat.add_0_l. by apply Hfile'. }
  cbn [app] in Hrun, Hrun'.
  unfold build_mask, build_shells, shell_shapes. rewrite Hrun, Hrun', Hlen.
  enough (mask = mask') as -> by done.
  apply list_eq. intros n.
  destruct (file !! n) as [[ras decs]|] eqn:Hn.
  - destruct (lookup_lt_is_Some_2 file' n) as [[ras' decs'] Hn'].
    { apply lookup_lt_Some in Hn. lia. }
    destruct (Hm _ _ _ Hn) as (shell & -> & Hd & He).
    destruct (Hm' _ _ _ Hn') as (shell' & -> & Hd' & He').
    f_equal. eapply shell_ext; [exact Hd|exact Hd'|].
    intros a b Ha Hb. rewrite (He a b Ha Hb), (He' a b Ha Hb).
    pose proof (Hsame n ras decs ras' decs' Hn Hn') as Hbins.
    split; intros (j & dec & Hj1 & Hj2 & ->).
    + assert ((a, dec) ∈ zip ras' decs') as Hin.
      { apply Hbins, list_elem_of_lookup. exists j. by apply lookup_zip_Some. }
      apply list_elem_of_lookup in Hin as [j' [H1 H2]%lookup_zip_Some].
      by exists j', dec.
    + assert ((a, dec) ∈ zip ras decs) as Hin.
      { apply Hbins, list_elem_of_lookup. exists j. by apply lookup_zip_Some. }
      apply list_elem_of_lookup in Hin as [j' [H1 H2]%lookup_zip_Some].
      by exists j', dec.
  - apply lookup_ge_None in Hn.
    rewrite !lookup_ge_None_2; [done|lia..].
Qed.

(** The example footprint, and the same bins in the other order with one
    of them listed twice. *)
Lemma build_mask_depends_on_bins_only_witness :
  build_mask 360 180 example_footprint
  = build_mask 360 180 [([359; 0; 359], [89; -90; 89])%Z].
Proof.
  apply (build_mask_depends_on_bins_only 360 180 example_footprint
           [([359; 0; 359], [89; -90; 89])%Z]); [lia|lia|done| | |].
  - intros [|n] ras decs; [|done]. intros [= <- <-].
    split; [done|]. split; repeat constructor; lia.
  - intros [|n] ras decs; [|done]. intros [= <- <-].
    split; [done|]. split; repeat constructor; lia.
  - intros [|n] ras decs ras' decs'; [|done].
    intros [= <- <-] [= <- <-] bin. cbn [zip zip_with].
    rewrite !elem_of_cons, !elem_of_nil. tauto.
Defined.

Lemma wrap_index_ok (len i : Z) (k : nat) :
  wrap_index len i = Ok k → (- len ≤ i < len)%Z ∧ (Z.of_nat k < len)%Z.
Proof.
  unfold wrap_index. destruct (decide (i < 0)%Z);
    destruct (decide _); intros [= <-]; lia.
Qed.

Lemma wrap_index_error (len i : Z) (e : exn) :
  wrap_index len i = Raise e → e = IndexError.
Proof. unfold wrap_index. destruct (decide _); congruence. Qed.

Lemma getitem_ok {A : Type} (a : list A) (i : Z) (x : A) :
  getitem a i = Ok x →
  (- Z.of_nat (length a) ≤ i < Z.of_nat (length a))%Z ∧ x ∈ a.
Proof.
  unfold getitem. destruct (wrap_index _ i) as [k|] eqn:Hk; [|done].
  cbn. destruct (a !! k) as [y|] eqn:Hy; [|done]. intros [= <-].
  split; [by apply wrap_index_ok in Hk as [? _]|].
  by eapply list_elem_of_lookup_2.
Qed.

Lemma getitem_error {A : Type} (a : list A) (i : Z) (e : exn) :
  getitem a i = Raise e → e = IndexError.
Proof.
  unfold getitem. destruct (wrap_index _ i) as [k|] eqn:Hk; cbn.
  - destruct (a !! k); congruence.
  - intros [= <-]. by apply wrap_index_error in Hk.
Qed.

Lemma setitem_ok {A : Type} (a a' : list A) (i : Z) (x : A) :
  setitem a i x = Ok a' →
  (- Z.of_nat (length a) ≤ i < Z.of_nat (length a))%Z ∧
  ∃ k, a' = <[k := x]> a.
Proof.
  unfold setitem. destruct (wrap_index _ i) as [k|] eqn:Hk; [|done].
  cbn. intros [= <-]. split; [by apply wrap_index_ok in Hk as [? _]|].
  by exists k.
Qed.

Lemma setitem_error {A : Type} (a : list A) (i : Z) (x : A) (e : exn) :
  setitem a i x = Raise e → e = IndexError.
Proof.
  unfold setitem. destruct (wrap_index _ i) as [k|] eqn:Hk; cbn; [done|].
  intros [= <-]. by apply wrap_index_error in Hk.
Qed.

Lemma for_each_ok_inv {St A : Type} (P : St → Prop)
    (body : St → A → result St) (l : list A) (s s' : St) :
  (∀ s a s1, a ∈ l → P s → body s a = Ok s1 → P s1) →
  P s → for_each body l s = Ok s' →
  ∀ a, a ∈ l → ∃ s0 s1, P s0 ∧ body s0 a = Ok s1.
Proof.
  revert s. induction l as [|a0 l IH]; intros s Hpres Hs Hrun a Hin.
  - by apply elem_of_nil in Hin.
  - cbn [for_each] in Hrun. destruct (body s a0) as [s1|e] eqn:Hb; [|done].
    change (Ok s1 ≫= ?f) with (f s1) in Hrun. cbv beta in Hrun.
    apply elem_of_cons in Hin as [->|Hin].
    + by exists s, s1.
    + apply (IH s1); [|by eapply (Hpres s a0); [apply elem_of_cons; left|..]
                      |done..].
      intros s2 a2 s3 Hin2. apply Hpres, elem_of_cons. by right.
Qed.

Lemma for_each_raise {St A : Type} (body : St → A → result St) (l : list A)
    (s : St) (e : exn) :
  for_each body l s = Raise e → ∃ s0 a, a ∈ l ∧ body s0 a = Raise e.
Proof.
  revert s. induction l as [|a0 l IH]; intros s Hrun; [done|].
  cbn [for_each] in Hrun. destruct (body s a0) as [s1|e'] eqn:Hb.
  - change (Ok s1 ≫= ?f) with (f s1) in Hrun. cbv beta in Hrun.
    destruct (IH _ Hrun) as (s0 & a & Hin & Ha).
    exists s0, a. split; [|done]. apply elem_of_cons. by right.
  - injection Hrun as ->. exists s, a0. split; [|done].
    apply elem_of_cons. by left.
Qed.

Section build_mask_errors.
Variables (maskra maskdec : Z).
Hypothesis maskra_nonneg : (0 ≤ maskra)%Z.
Hypothesis maskdec_nonneg : (0 ≤ maskdec)%Z.

Lemma fill_body_ok (i rows cols : Z) (ras decs : list Z)
    (shell shell' : list (list bool)) (j : nat) (ra : Z) :
  shell_dims rows cols shell → ras !! j = Some ra →
  (ra' ← getitem ras (Z.of_nat j);
   row ← getitem shell ra';
   dec ← getitem decs (Z.of_nat j);
   row' ← setitem row (dec - i * dec_offset)%Z true;
   setitem shell ra' row') = Ok shell' →
  shell_dims rows cols shell' ∧ (- rows ≤ ra < rows)%Z ∧
  ∃ dec, decs !! j = Some dec ∧ (- cols ≤ dec + 90 * i < cols)%Z.
Proof.
  intros [Hr Hc] Hra. rewrite (getitem_in_range _ _ _ Hra).
  change (Ok ra ≫= ?f) with (f ra). cbv beta.
  destruct (getitem shell ra) as [row|] eqn:Hrow; [|done].
  change (Ok row ≫= ?f) with (f row). cbv beta.
  apply getitem_ok in Hrow as [Hrange Hin].
  destruct (getitem decs (Z.of_nat j)) as [dec|] eqn:Hdec; [|done].
  change (Ok dec ≫= ?f) with (f dec). cbv beta.
  destruct (setitem row _ true) as [row'|] eqn:Hset; [|done].
  change (Ok row' ≫= ?f) with (f row'). cbv beta.
  apply setitem_ok in Hset as [Hcol [k ->]].
  intros [_ [k' ->]]%setitem_ok.
  assert (Z.of_nat (length row) = cols) as Hrl.
  { rewrite Forall_forall in Hc. by apply Hc. }
  split; [|split; [lia|]].
  - split; [by rewrite length_insert|].
    destruct (decide (k' < length shell)%nat).
    + apply Forall_insert; [done|]. by rewrite length_insert.
    + by rewrite list_insert_ge by lia.
  - exists dec. split.
    + rewrite getitem_nonneg in Hdec by lia. rewrite Nat2Z.id in Hdec.
      destruct (decs !! j) as [d|]; [|done]. by injection Hdec as ->.
    + unfold dec_offset in Hcol. lia.
Qed.

Lemma fill_body_error (i : Z) (ras decs : list Z) (shell : list (list bool))
    (j : Z) (e : exn) :
  (ra' ← getitem ras j;
   row ← getitem shell ra';
   dec ← getitem decs j;
   row' ← setitem row (dec - i * dec_offset)%Z true;
   setitem shell ra' row') = Raise e → e = IndexError.
Proof.
  destruct (getitem ras j) as [ra|] eqn:H1;
    [|intros [= <-]; by apply getitem_error in H1].
  change (Ok ra ≫= ?f) with (f ra). cbv beta.
  destruct (getitem shell ra) as [row|] eqn:H2;
    [|intros [= <-]; by apply getitem_error in H2].
  change (Ok row ≫= ?f) with (f row). cbv beta.
  destruct (getitem decs j) as [dec|] eqn:H3;
    [|intros [= <-]; by apply getitem_error in H3].
  change (Ok dec ≫= ?f) with (f dec). cbv beta.
  destruct (setitem row _ true) as [row'|] eqn:H4;
    [|intros [= <-]; by apply setitem_error in H4].
  change (Ok row' ≫= ?f) with (f row'). cbv beta.
  apply setitem_error.
Qed.

Lemma build_body_error (i : Z) (ras decs : list Z) (e : exn) :
  (1 ≤ i)%Z →
  (shell ← np_zeros2 (i * maskra) (i * maskdec);
   fill_shell i ras decs shell) = Raise e → e = IndexError.
Proof.
  intros Hi. destruct (shell_dims_zeros (i * maskra) (i * maskdec)) as [-> _];
    [lia..|].
  change (Ok ?x ≫= ?f) with (f x). cbv beta. unfold fill_shell.
  intros (s0 & j & _ & Hj)%for_each_raise. by apply fill_body_error in Hj.
Qed.

Lemma build_body_ok (i : Z) (ras decs : list Z) (shell' : list (list bool))
    (j : nat) (ra : Z) :
  (1 ≤ i)%Z → ras !! j = Some ra →
  (shell ← np_zeros2 (i * maskra) (i * maskdec);
   fill_shell i ras decs shell) = Ok shell' →
  (- (i * maskra) ≤ ra < i * maskra)%Z ∧
  ∃ dec, decs !! j = Some dec ∧
         (- (i * maskdec) ≤ dec + 90 * i < i * maskdec)%Z.
Proof.
  intros Hi Hra.
  destruct (shell_dims_zeros (i * maskra) (i * maskdec)) as [-> Hdims];
    [lia..|].
  change (Ok ?x ≫= ?f) with (f x). cbv beta. unfold fill_shell. intros Hrun.
  assert (∀ s a s1, a ∈ Z.of_nat <$> seq 0 (length ras) →
            shell_dims (i * maskra) (i * maskdec) s →
            (ra' ← getitem ras a;
             row ← getitem s ra';
             dec ← getitem decs a;
             row' ← setitem row (dec - i * dec_offset)%Z true;
             setitem s ra' row') = Ok s1 →
            shell_dims (i * maskra) (i * maskdec) s1) as Hpres.
  { intros s a s1 Hin Hd Hb.
    apply list_elem_of_fmap in Hin as (j0 & -> & Hj0).
    apply elem_of_seq in Hj0.
    destruct (lookup_lt_is_Some_2 ras j0) as [ra0 Hra0]; [lia|].
    by destruct (fill_body_ok _ _ _ _ _ _ _ _ _ Hd Hra0 Hb). }
  destruct (for_each_ok_inv (shell_dims (i * maskra) (i * maskdec))
              _ _ _ _ Hpres Hdims Hrun (Z.of_nat j))
    as (s0 & s1 & Hd0 & Hbody).
  - apply list_elem_of_fmap. exists j. split; [done|].
    apply elem_of_seq. apply lookup_lt_Some in Hra. lia.
  - by destruct (fill_body_ok _ _ _ _ _ _ _ _ _ Hd0 Hra Hbody) as (_ & ? & ?).
Qed.

Lemma build_shells_bins_valid (file : list (list Z * list Z))
    (mask : list (list (list bool))) (n j : nat) (ras decs : list Z) (ra : Z) :
  build_shells maskra maskdec file = Ok mask →
  file !! n = Some (ras, decs) → ras !! j = Some ra →
  (- ((Z.of_nat n + 1) * maskra) ≤ ra < (Z.of_nat n + 1) * maskra)%Z ∧
  ∃ dec, decs !! j = Some dec ∧
         (- ((Z.of_nat n + 1) * maskdec) ≤ dec + 90 * (Z.of_nat n + 1)
          < (Z.of_nat n + 1) * maskdec)%Z.
Proof.
  unfold build_shells. intros Hrun Hn Hra.
  destruct (for_each_ok_inv (λ _, True) _ _ _ _ ltac:(done) I Hrun
              ((Z.of_nat n + 1)%Z, (ras, decs))) as (acc & acc' & _ & Hbody).
  - apply list_elem_of_lookup. exists n. apply lookup_zip_Some. cbn.
    split; [|done]. rewrite list_lookup_fmap, lookup_seq_lt.
    + cbn. f_equal. lia.
    + by apply lookup_lt_Some in Hn.
  - cbv beta iota in Hbody.
    destruct (np_zeros2 _ _) as [shell0|] eqn:Hz; [|done].
    change (Ok shell0 ≫= ?f) with (f shell0) in Hbody. cbv beta in Hbody.
    destruct (fill_shell _ _ _ _) as [shell'|] eqn:Hf; [|done].
    apply (build_body_ok (Z.of_nat n + 1) ras decs shell' j ra); [lia|done|].
    rewrite Hz. exact Hf.
Qed.

Lemma build_shells_error (file : list (list Z * list Z)) (e : exn) :
  build_shells maskra maskdec file = Raise e → e = IndexError.
Proof.
  unfold build_shells.
  intros (acc & [i [ras decs]] & Hin & Hbody)%for_each_raise.
  apply list_elem_of_lookup in Hin as [n [Hi _]%lookup_zip_Some].
  cbn in Hi. apply list_lookup_fmap_Some in Hi as (k & -> & Hk).
  apply lookup_seq in Hk as [-> _].
  apply (build_body_error (Z.of_nat (1 + n)) ras decs); [lia|].
  cbv beta iota in Hbody.
  destruct (np_zeros2 _ _) as [shell0|] eqn:Hz; [|by injection Hbody as ->].
  change (Ok shell0 ≫= ?f) with (f shell0) in Hbody |- *.
  cbv beta in Hbody |- *.
  destruct (fill_shell _ _ _ _) as [shell'|]; [done|].
  by injection Hbody as ->.
Qed.
End build_mask_errors.

(** X16: [build_mask] checks the footprint only through its subscripts.
    With base resolutions that are not negative, a footprint that lists in
    some shell [n] an RA bin outside [-n*maskra, n*maskra), or a Dec bin
    whose column [dec + 90n] is outside [-n*maskdec, n*maskdec), or no Dec
    bin for one of its RA bins, makes [build_mask] raise [IndexError]: no
    mask is returned. *)
Theorem build_mask_rejects_bin_outside_grid
    (maskra maskdec : Z) (file : list (list Z * list Z)) (n j : nat)
    (ras decs : list Z) (ra : Z) :
  (0 ≤ maskra)%Z → (0 ≤ maskdec)%Z →
  file !! n = Some (ras, decs) → ras !! j = Some ra →
  ¬ (- ((Z.of_nat n + 1) * maskra) ≤ ra < (Z.of_nat n + 1) * maskra)%Z ∨
  (∀ dec, decs !! j = Some dec →
     ¬ (- ((Z.of_nat n + 1) * maskdec) ≤ dec + 90 * (Z.of_nat n + 1)
        < (Z.of_nat n + 1) * maskdec)%Z) →
  build_mask maskra maskdec file = Raise IndexError.
Proof.
  intros Hra Hdec Hn Hj Hbad. unfold build_mask.
  destruct (build_shells maskra maskdec file) as [mask|e] eqn:Hrun.
  - exfalso.
    destruct (build_shells_bins_valid maskra maskdec Hra Hdec file mask n j
                ras decs ra Hrun Hn Hj) as [Hok (dec & Hd & Hdok)].
    destruct Hbad as [Hbad|Hbad]; [done|]. by apply (Hbad dec).
  - by rewrite (build_shells_error maskra maskdec Hra Hdec file e Hrun).
Qed.

(** The RA bin 400 in shell 1, for 360 by 180 base bins. *)
Lemma build_mask_rejects_bin_outside_grid_witness :
  build_mask 360 180 [([400], [0])%Z] = Raise IndexError.
Proof.
  apply (build_mask_rejects_bin_outside_grid 360 180 [([400], [0])%Z]
           0 0 [400%Z] [0%Z] 400); [lia|lia|done|done|].
  left. cbn. lia.
Defined.

(** ** [save_maximals] *)






